(** * paintgl: draw targets (src/DrawTarget.ts)

    A shallow embedding of the [DrawTarget] class hierarchy: the abstract
    base class, [CanvasDrawTarget] and [TextureDrawTarget], together with
    the part of the WebGL context they drive.

    Numbers.  The embedding has two layers.  In the first a JavaScript
    [number] is an exact rational ([Qc], canonical fractions, so that
    equality is Leibniz equality); it carries the device effects and the
    geometry of the scissor, and its one partial operation is the
    division [2 / size.width] ([Number_div]).  The second layer, module
    [Double], repeats the arithmetic of [_flipRect], [readPixels] and
    [draw] on binary64 numbers (the primitive floats, whose operations
    are those of IEEE 754 as in JavaScript): there the subtractions and
    the division round, and the properties that depend on rounding are
    stated and proved.

    Effects.  Methods that talk to the device are state transformers on
    a [Context] (canvas plus WebGL state); the WebGL state keeps both the
    registers the calls set and the log of the calls themselves. *)

From Stdlib Require Import ZArith QArith Qcanon Qround String List.
From Stdlib Require Import Floats.
From stdpp Require Import base option numbers gmap.
Import ListNotations.

Local Open Scope Qc_scope.

(** ** Numbers *)

Abbreviation number := Qc.

(** A numeric literal of the source. *)
Definition lit (z : Z) : number := Q2Qc (inject_Z z).

(** [a / b]; [None] when the divisor is zero (JavaScript yields an
    infinity or NaN there, which the rationals do not have). *)
Definition Number_div (a b : number) : option number :=
  if decide (b = 0) then None else Some (a / b).

Definition Math_max (a b : number) : number := if decide (a < b) then b else a.
Definition Math_min (a b : number) : number := if decide (b < a) then b else a.
Definition Math_floor (a : number) : number := lit (Qfloor a).
Definition Math_ceil (a : number) : number := lit (Qceiling a).

(** ** The [paintvec] package: [Vec2], [Rect], [Transform] *)

Module Vec2.

(** Modelled from the spec: [Vec2] of the imported package paintvec,
    which is not part of the sources; a pair of numbers, read as a point
    or as an extent ([width], [height]). *)
Record t := new { x : number; y : number }.

(** [new Vec2(x)]: the second argument defaults to the first. *)
Definition new1 (x : number) : t := new x x.
(** [new Vec2()]. *)
Definition new0 : t := new1 0.

Definition width (v : t) : number := x v.
Definition height (v : t) : number := y v.

Definition floor (v : t) : t := new (Math_floor (x v)) (Math_floor (y v)).
Definition ceil (v : t) : t := new (Math_ceil (x v)) (Math_ceil (y v)).

End Vec2.

Module Rect.

(** Modelled from the spec: [Rect] of the imported package paintvec,
    which is not part of the sources; an axis-aligned rectangle,
    [new Rect(topLeft, bottomRight)], with [width = right - left] and
    [height = bottom - top]. *)
Record t := new { topLeft : Vec2.t; bottomRight : Vec2.t }.

Definition left (r : t) : number := Vec2.x (topLeft r).
Definition top (r : t) : number := Vec2.y (topLeft r).
Definition right (r : t) : number := Vec2.x (bottomRight r).
Definition bottom (r : t) : number := Vec2.y (bottomRight r).
Definition width (r : t) : number := right r - left r.
Definition height (r : t) : number := bottom r - top r.

(** Modelled from the spec: [Rect.intBounding] of the imported package
    paintvec, which is not part of the sources; "rounds it to integer
    pixel bounds": the smallest rectangle with integer corners that
    covers [r]. *)
Definition intBounding (r : t) : t :=
  new (Vec2.floor (topLeft r)) (Vec2.ceil (bottomRight r)).

(** Modelled from the spec: [Rect.intersection] of the imported package
    paintvec, which is not part of the sources; the common part of two
    rectangles, [undefined] ([None]) when they share no area. *)
Definition intersection (a b : t) : option t :=
  let left := Math_max (left a) (left b) in
  let top := Math_max (top a) (top b) in
  let right := Math_min (right a) (right b) in
  let bottom := Math_min (bottom a) (bottom b) in
  if decide (left < right ∧ top < bottom)
  then Some (new (Vec2.new left top) (Vec2.new right bottom))
  else None.

End Rect.

Module Transform.

(** Modelled from the spec: [Transform] of the imported package
    paintvec, which is not part of the sources; a 3x3 matrix acting on
    row vectors [(x, y, 1)], the identity by default. *)
Record t := new {
  m00 : number; m01 : number; m02 : number;
  m10 : number; m11 : number; m12 : number;
  m20 : number; m21 : number; m22 : number }.

(** [new Transform()]. *)
Definition identity : t := new 1 0 0 0 1 0 0 0 1.

(** Modelled from the spec: [Transform.scale] of paintvec. *)
Definition scale (s : Vec2.t) : t :=
  new (Vec2.x s) 0 0 0 (Vec2.y s) 0 0 0 1.

(** Modelled from the spec: [Transform.translate] of paintvec. *)
Definition translate (d : Vec2.t) : t :=
  new 1 0 0 0 1 0 (Vec2.x d) (Vec2.y d) 1.

(** Modelled from the spec: [a.merge(b)] of paintvec, the matrix product
    [a * b]; on row vectors this is [a] first and [b] second, the order
    in which the normalisation of [draw] has to act for pixel [(0,0)]
    to land on [(-1,-1)]. *)
Definition merge (a b : t) : t :=
  new (m00 a * m00 b + m01 a * m10 b + m02 a * m20 b)
      (m00 a * m01 b + m01 a * m11 b + m02 a * m21 b)
      (m00 a * m02 b + m01 a * m12 b + m02 a * m22 b)
      (m10 a * m00 b + m11 a * m10 b + m12 a * m20 b)
      (m10 a * m01 b + m11 a * m11 b + m12 a * m21 b)
      (m10 a * m02 b + m11 a * m12 b + m12 a * m22 b)
      (m20 a * m00 b + m21 a * m10 b + m22 a * m20 b)
      (m20 a * m01 b + m21 a * m11 b + m22 a * m21 b)
      (m20 a * m02 b + m21 a * m12 b + m22 a * m22 b).

(** Modelled from the spec: [Vec2.transform] of paintvec, the image of a
    point: [(x, y, 1) * m] followed by the perspective division. *)
Definition apply (m : t) (p : Vec2.t) : option Vec2.t :=
  let x := m00 m * Vec2.x p + m10 m * Vec2.y p + m20 m in
  let y := m01 m * Vec2.x p + m11 m * Vec2.y p + m21 m in
  let w := m02 m * Vec2.x p + m12 m * Vec2.y p + m22 m in
  x' ← Number_div x w; y' ← Number_div y w; Some (Vec2.new x' y').

Definition isAffine (m : t) : Prop := m02 m = 0 ∧ m12 m = 0 ∧ m22 m = 1.

End Transform.

(** ** The WebGL rendering context

    Only what [DrawTarget.ts] touches: framebuffer objects and their
    colour attachment, the scissor test and box, the viewport, the clear
    colour, and the calls that draw targets issue.  [exec] gives each
    call its effect on the registers and appends it to the log. *)

Module WebGL.

Definition WebGLFramebuffer := positive.
Definition WebGLTexture := positive.
Definition ArrayBufferView := positive.

(** [PixelType] and [PixelFormat] of [./Texture] are unions of string
    literals, among them "byte" and "rgba". *)
Definition PixelType := string.
Definition PixelFormat := string.

Inductive Capability := SCISSOR_TEST.
Inductive ClearMask := COLOR_BUFFER_BIT.

Definition Box : Type := number * number * number * number.

Inductive Call :=
| createFramebuffer (result : WebGLFramebuffer)
| deleteFramebuffer (fb : WebGLFramebuffer)
| deleteTexture (tex : WebGLTexture)
  (** [bindFramebuffer(gl.FRAMEBUFFER, fb)]; [None] is [null]. *)
| bindFramebuffer (fb : option WebGLFramebuffer)
  (** [framebufferTexture2D(gl.FRAMEBUFFER, gl.COLOR_ATTACHMENT0,
      gl.TEXTURE_2D, tex, 0)]. *)
| framebufferTexture2D (tex : WebGLTexture)
| enable (cap : Capability)
| disable (cap : Capability)
| scissor (x y width height : number)
| viewport (x y width height : number)
| clearColor (r g b a : number)
| clear (mask : ClearMask)
  (** [readPixels(x, y, width, height, glFormat(gl, format),
      glType(context, type), data)]. *)
| readPixels (x y width height : number)
             (format : PixelFormat) (type : PixelType) (data : ArrayBufferView).

Record State := mkState {
  framebuffers : gset WebGLFramebuffer;
  textures : gset WebGLTexture;
  colorAttachment0 : gmap WebGLFramebuffer WebGLTexture;
  framebufferBinding : option WebGLFramebuffer;
  scissorTest : bool;
  scissorBox : Box;
  viewportBox : Box;
  colorClearValue : Box;
  calls : list Call }.

Definition initial : State :=
  mkState ∅ ∅ ∅ None false (0, 0, 0, 0) (0, 0, 0, 0) (0, 0, 0, 0) [].

Definition with_framebuffers (v : gset WebGLFramebuffer) (s : State) : State :=
  mkState v (textures s) (colorAttachment0 s) (framebufferBinding s)
          (scissorTest s) (scissorBox s) (viewportBox s) (colorClearValue s) (calls s).
Definition with_textures (v : gset WebGLTexture) (s : State) : State :=
  mkState (framebuffers s) v (colorAttachment0 s) (framebufferBinding s)
          (scissorTest s) (scissorBox s) (viewportBox s) (colorClearValue s) (calls s).
Definition with_colorAttachment0 (v : gmap WebGLFramebuffer WebGLTexture) (s : State)
    : State :=
  mkState (framebuffers s) (textures s) v (framebufferBinding s)
          (scissorTest s) (scissorBox s) (viewportBox s) (colorClearValue s) (calls s).
Definition with_framebufferBinding (v : option WebGLFramebuffer) (s : State) : State :=
  mkState (framebuffers s) (textures s) (colorAttachment0 s) v
          (scissorTest s) (scissorBox s) (viewportBox s) (colorClearValue s) (calls s).
Definition with_scissorTest (v : bool) (s : State) : State :=
  mkState (framebuffers s) (textures s) (colorAttachment0 s) (framebufferBinding s)
          v (scissorBox s) (viewportBox s) (colorClearValue s) (calls s).
Definition with_scissorBox (v : Box) (s : State) : State :=
  mkState (framebuffers s) (textures s) (colorAttachment0 s) (framebufferBinding s)
          (scissorTest s) v (viewportBox s) (colorClearValue s) (calls s).
Definition with_viewportBox (v : Box) (s : State) : State :=
  mkState (framebuffers s) (textures s) (colorAttachment0 s) (framebufferBinding s)
          (scissorTest s) (scissorBox s) v (colorClearValue s) (calls s).
Definition with_colorClearValue (v : Box) (s : State) : State :=
  mkState (framebuffers s) (textures s) (colorAttachment0 s) (framebufferBinding s)
          (scissorTest s) (scissorBox s) (viewportBox s) v (calls s).

(** The effect of a call on the registers.  Deleting the bound
    framebuffer unbinds it; attaching a texture needs a bound
    framebuffer object. *)
Definition effect (c : Call) (s : State) : State :=
  match c with
  | createFramebuffer fb => with_framebuffers ({[fb]} ∪ framebuffers s) s
  | deleteFramebuffer fb =>
      with_framebuffers (framebuffers s ∖ {[fb]})
        (with_colorAttachment0 (delete fb (colorAttachment0 s))
           (with_framebufferBinding
              (if decide (framebufferBinding s = Some fb) then None
               else framebufferBinding s) s))
  | deleteTexture tex => with_textures (textures s ∖ {[tex]}) s
  | bindFramebuffer fb => with_framebufferBinding fb s
  | framebufferTexture2D tex =>
      match framebufferBinding s with
      | Some fb => with_colorAttachment0 (<[fb := tex]> (colorAttachment0 s)) s
      | None => s
      end
  | enable SCISSOR_TEST => with_scissorTest true s
  | disable SCISSOR_TEST => with_scissorTest false s
  | scissor x y w h => with_scissorBox (x, y, w, h) s
  | viewport x y w h => with_viewportBox (x, y, w, h) s
  | clearColor r g b a => with_colorClearValue (r, g, b, a) s
  | clear _ => s
  | readPixels _ _ _ _ _ _ _ => s
  end.

Definition log (c : Call) (s : State) : State :=
  mkState (framebuffers s) (textures s) (colorAttachment0 s)
          (framebufferBinding s) (scissorTest s) (scissorBox s)
          (viewportBox s) (colorClearValue s) (calls s ++ [c]).

Definition exec (c : Call) (s : State) : State := log c (effect c s).

End WebGL.

(** ** [Context]: the canvas and its WebGL state *)

Record HTMLCanvasElement := { width : number; height : number }.

(** Modelled from the spec: [Context] of [./Context], which is not part
    of the sources; the device a target is bound to, of which the draw
    targets read [canvas] and [gl]. *)
Record Context := { canvas : HTMLCanvasElement; gl : WebGL.State }.

(** Device code: a state transformer on the context. *)
Definition GL (A : Type) : Type := Context → A * Context.

#[export] Instance GL_ret : MRet GL := λ A a ctx, (a, ctx).
#[export] Instance GL_bind : MBind GL :=
  λ A B f m ctx, let '(a, ctx') := m ctx in f a ctx'.

(** One call on [context.gl]. *)
Definition call (c : WebGL.Call) : GL unit :=
  λ ctx, (tt, {| canvas := canvas ctx; gl := WebGL.exec c (gl ctx) |}).

(** [gl.createFramebuffer()!]: a handle that is not in use. *)
Definition gl_createFramebuffer : GL WebGL.WebGLFramebuffer :=
  λ ctx, let fb := fresh (WebGL.framebuffers (gl ctx)) in
         (fb, snd (call (WebGL.createFramebuffer fb) ctx)).

(** The calls issued by a piece of device code started in [ctx]. *)
Definition issued {A} (m : GL A) (ctx : Context) : list WebGL.Call :=
  drop (length (WebGL.calls (gl ctx))) (WebGL.calls (gl (snd (m ctx)))).

(** ** Collaborators: [Texture], [Color], [Model] *)

Module Texture.
(** Modelled from the spec: [Texture] of [./Texture], which is not part
    of the sources; the pixel-buffer resource "exposes size (extent),
    pixelType, pixelFormat, and an opaque native storage handle". *)
Record t := new {
  texture : WebGL.WebGLTexture;
  size : Vec2.t;
  pixelType : WebGL.PixelType;
  pixelFormat : WebGL.PixelFormat }.
End Texture.

Module Color.
(** Modelled from the spec: [Color] of [./Color], which is not part of
    the sources; "four numeric channel components". *)
Record t := new { r : number; g : number; b : number; a : number }.
End Color.

Module Model.
(** Modelled from the spec: [Model] of [./Model], which is not part of
    the sources; it "exposes draw(transform)", with no return value:
    whatever the model does to the device. *)
Record t := new { draw : Transform.t → GL unit }.
End Model.

(** ** [DrawTarget.ts] *)

Module DrawTarget.

(** The fields every draw target has: [scissor], [flipY], [transform]. *)
Record Fields := mkFields {
  scissor : option Rect.t;
  flipY : bool;
  transform : Transform.t }.

Record CanvasDrawTarget := mkCanvas { canvas_fields : Fields }.

Record TextureDrawTarget := mkTexture {
  texture_fields : Fields;
  framebuffer : WebGL.WebGLFramebuffer;
  _texture : option Texture.t }.

(** A draw target is an instance of one of the two concrete classes. *)
Inductive t :=
| Canvas (self : CanvasDrawTarget)
| Texture (self : TextureDrawTarget).

Coercion Canvas : CanvasDrawTarget >-> t.
Coercion Texture : TextureDrawTarget >-> t.

Definition fields (self : t) : Fields :=
  match self with
  | Canvas c => canvas_fields c
  | Texture x => texture_fields x
  end.

(** [self.transform = m]: the field is public and assignable. *)
Definition set_transform (self : t) (m : Transform.t) : t :=
  match self with
  | Canvas c =>
      Canvas (mkCanvas (mkFields (scissor (canvas_fields c)) (flipY (canvas_fields c)) m))
  | Texture x =>
      Texture (mkTexture (mkFields (scissor (texture_fields x)) (flipY (texture_fields x)) m)
                         (framebuffer x) (_texture x))
  end.

(** [self.scissor = sc]. *)
Definition set_scissor (self : t) (sc : option Rect.t) : t :=
  match self with
  | Canvas c =>
      Canvas (mkCanvas (mkFields sc (flipY (canvas_fields c)) (transform (canvas_fields c))))
  | Texture x =>
      Texture (mkTexture (mkFields sc (flipY (texture_fields x))
                                   (transform (texture_fields x)))
                         (framebuffer x) (_texture x))
  end.

(** [self.flipY = b]. *)
Definition set_flipY (self : t) (b : bool) : t :=
  match self with
  | Canvas c =>
      Canvas (mkCanvas (mkFields (scissor (canvas_fields c)) b (transform (canvas_fields c))))
  | Texture x =>
      Texture (mkTexture (mkFields (scissor (texture_fields x)) b
                                   (transform (texture_fields x)))
                         (framebuffer x) (_texture x))
  end.

(** [get texture()]. *)
Definition texture (self : TextureDrawTarget) : option Texture.t := _texture self.

(** [get size()]: the canvas of the context, or the texture if any. *)
Definition size (self : t) (ctx : Context) : Vec2.t :=
  match self with
  | Canvas _ => Vec2.new (width (canvas ctx)) (height (canvas ctx))
  | Texture x =>
      match texture x with
      | Some tex => Texture.size tex
      | None => Vec2.new0
      end
  end.

Definition pixelType (self : t) : WebGL.PixelType :=
  match self with
  | Canvas _ => "byte"%string
  | Texture x =>
      match texture x with
      | Some tex => Texture.pixelType tex
      | None => "byte"%string
      end
  end.

Definition pixelFormat (self : t) : WebGL.PixelFormat :=
  match self with
  | Canvas _ => "rgba"%string
  | Texture x =>
      match texture x with
      | Some tex => Texture.pixelFormat tex
      | None => "rgba"%string
      end
  end.

(** [_flipRect(rect)]. *)
Definition _flipRect (self : t) (ctx : Context) (rect : Rect.t) : Rect.t :=
  if flipY (fields self) then
    let left := Rect.left rect in
    let right := Rect.right rect in
    let top := Vec2.height (size self ctx) - Rect.bottom rect in
    let bottom := Vec2.height (size self ctx) - Rect.top rect in
    Rect.new (Vec2.new left top) (Vec2.new right bottom)
  else rect.

(** [DrawTarget.use()] of the base class ([super.use()]). *)
Definition super_use (self : t) : GL unit := λ ctx,
  (match scissor (fields self) with
   | Some sc =>
       call (WebGL.enable WebGL.SCISSOR_TEST);;
       let drawableRect := Rect.new (Vec2.new1 0) (size self ctx) in
       let rect :=
         Rect.intersection (Rect.intBounding (_flipRect self ctx sc)) drawableRect in
       match rect with
       | Some rect =>
           call (WebGL.scissor (Rect.left rect) (Rect.top rect)
                               (Rect.width rect) (Rect.height rect))
       | None => call (WebGL.scissor 0 0 0 0)
       end
   | None => call (WebGL.disable WebGL.SCISSOR_TEST)
   end;;
   call (WebGL.viewport 0 0 (Vec2.x (size self ctx)) (Vec2.y (size self ctx)))) ctx.

(** [use()], as overridden by the two classes. *)
Definition use (self : t) : GL unit :=
  match self with
  | Canvas _ => call (WebGL.bindFramebuffer None);; super_use self
  | Texture x => call (WebGL.bindFramebuffer (Some (framebuffer x)));; super_use self
  end.

(** The matrix [draw] hands to the model (lines 45-51), for a target
    that has an area; [None] when [2 / size.width] or [2 / size.height]
    divides by zero, where the code goes on with an infinity or NaN
    ([Double.DrawTarget.effectiveTransform] below). *)
Definition effectiveTransform (self : t) (ctx : Context) : option Transform.t :=
  let size := size self ctx in
  sx ← Number_div 2 (Vec2.width size);
  sy ← Number_div 2 (Vec2.height size);
  let transform :=
    Transform.merge
      (Transform.merge (transform (fields self)) (Transform.scale (Vec2.new sx sy)))
      (Transform.translate (Vec2.new1 (-1))) in
  Some (if flipY (fields self)
        then Transform.merge transform (Transform.scale (Vec2.new 1 (-1)))
        else transform).

(** [draw(model)]: the activation, then the model with the matrix.
    Where the matrix is not finite ([effectiveTransform] is [None]) the
    run leaves this layer and [draw] is [None]; the code has no such
    exit and calls the model all the same ([Double.DrawTarget.draw]
    below). *)
Definition draw (self : t) (model : Model.t) (ctx : Context) : option (unit * Context) :=
  let ctx1 := snd (use self ctx) in
  transform ← effectiveTransform self ctx1;
  Some (Model.draw model transform ctx1).

(** [clear(color)]. *)
Definition clear (self : t) (color : Color.t) : GL unit :=
  use self;;
  call (WebGL.clearColor (Color.r color) (Color.g color) (Color.b color) (Color.a color));;
  call (WebGL.clear WebGL.COLOR_BUFFER_BIT).

(** [opts.format || this.pixelFormat]: an absent or empty string is
    falsy. *)
Definition or_else (o : option string) (d : string) : string :=
  match o with
  | Some s => if decide (s = ""%string) then d else s
  | None => d
  end.

Record ReadPixelsOpts := mkOpts {
  format : option WebGL.PixelFormat;
  type : option WebGL.PixelType }.

(** [readPixels(rect, data, opts)]. *)
Definition readPixels (self : t) (rect : Rect.t) (data : WebGL.ArrayBufferView)
    (opts : ReadPixelsOpts) : GL unit :=
  use self;;
  ((λ ctx,
      let rect := _flipRect self ctx rect in
      call (WebGL.readPixels (Rect.left rect) (Rect.top rect)
                             (Rect.width rect) (Rect.height rect)
                             (or_else (format opts) (pixelFormat self))
                             (or_else (type opts) (pixelType self)) data) ctx)
   : GL unit).

(** [set texture(texture)]. *)
Definition set_texture (self : TextureDrawTarget) (texture : option Texture.t)
    : GL TextureDrawTarget :=
  match texture with
  | Some tex =>
      call (WebGL.bindFramebuffer (Some (framebuffer self)));;
      call (WebGL.framebufferTexture2D (Texture.texture tex))
  | None => mret tt
  end;;
  mret (mkTexture (texture_fields self) (framebuffer self) texture).

(** Field initialisers of the base class. *)
Definition defaults : Fields := mkFields None false Transform.identity.

(** [new CanvasDrawTarget(context)]: [flipY = true]. *)
Definition new_CanvasDrawTarget : GL CanvasDrawTarget :=
  mret (mkCanvas (mkFields None true Transform.identity)).

(** [new TextureDrawTarget(context, texture)]. *)
Definition new_TextureDrawTarget (texture : option Texture.t) : GL TextureDrawTarget :=
  fb ← gl_createFramebuffer;
  set_texture (mkTexture defaults fb None) texture.

(** [dispose()]: nothing in the base class, overridden by
    [TextureDrawTarget]. *)
Definition dispose (self : t) : GL unit :=
  match self with
  | Canvas _ => mret tt
  | Texture x => call (WebGL.deleteFramebuffer (framebuffer x))
  end.

End DrawTarget.

Import DrawTarget.

(** ** The factors of the matrix of [draw] *)

(** The three matrices [draw] merges onto the global transform. *)
Definition normScale (self : DrawTarget.t) (ctx : Context) : Transform.t :=
  Transform.scale (Vec2.new (2 / Vec2.width (size self ctx))
                            (2 / Vec2.height (size self ctx))).
Definition normTranslate : Transform.t := Transform.translate (Vec2.new1 (-1)).
Definition flipScale : Transform.t := Transform.scale (Vec2.new 1 (-1)).

(** The last step of the chain: the flip, if [flipY] is set. *)
Definition flipStep (self : DrawTarget.t) (p : Vec2.t) : option Vec2.t :=
  if flipY (fields self) then Transform.apply flipScale p else Some p.

(** ** The arithmetic of the source on binary64 numbers

    [_flipRect] (lines 90-98), the [gl.readPixels] call of [readPixels]
    (lines 66-71) and the matrix of [draw] (lines 42-54) once more, with
    [number] as the binary64 floats: [-], [*], [+] and [/] are the
    IEEE 754 operations and round to nearest, a division by zero yields
    an infinity or NaN.  The activation [this.use()] is embedded in full
    in the first layer; here it is one event of the trace. *)

Module Double.

Local Open Scope float_scope.

(** An integer as a [number]: the binary64 number nearest to it, the
    integer itself up to [2 ^ 53]. *)
Definition ZSF (n : Z) : spec_float := binary_normalize prec emax n 0 false.
Definition ofZ (n : Z) : float := SF2Prim (ZSF n).

(** The mantissa and the exponent of a positive integer below [2 ^ 53]
    as a binary64 number: the integer shifted to 53 digits. *)
Definition nfm (n : positive) : positive :=
  Pos.shiftl n (Z.to_N (53 - Zpos (digits2_pos n))).
Definition nfe (n : positive) : Z := (Zpos (digits2_pos n) - 53)%Z.

(** A number that is finite and not a zero. *)
Definition nonzero_finite (x : float) : Prop :=
  match Prim2SF x with S754_finite _ _ _ => True | _ => False end.

Module Vec2.

(** Modelled from the spec: [Vec2] of the imported package paintvec,
    which is not part of the sources. *)
Record t := new { x : float; y : float }.

Definition new1 (x : float) : t := new x x.
Definition new0 : t := new1 0.
Definition width (v : t) : float := x v.
Definition height (v : t) : float := y v.

(** Modelled from the spec: [Vec2.equals] of paintvec, [==] on both
    coordinates. *)
Definition equals (a b : t) : bool := (x a =? x b) && (y a =? y b).

End Vec2.

Module Rect.

(** Modelled from the spec: [Rect] of the imported package paintvec,
    which is not part of the sources. *)
Record t := new { topLeft : Vec2.t; bottomRight : Vec2.t }.

Definition left (r : t) : float := Vec2.x (topLeft r).
Definition top (r : t) : float := Vec2.y (topLeft r).
Definition right (r : t) : float := Vec2.x (bottomRight r).
Definition bottom (r : t) : float := Vec2.y (bottomRight r).
Definition width (r : t) : float := right r - left r.
Definition height (r : t) : float := bottom r - top r.

(** Modelled from the spec: [Rect.equals] of paintvec. *)
Definition equals (a b : t) : bool :=
  Vec2.equals (topLeft a) (topLeft b) && Vec2.equals (bottomRight a) (bottomRight b).

End Rect.

Module Transform.

(** Modelled from the spec: [Transform] of the imported package
    paintvec, as in the first layer. *)
Record t := new {
  m00 : float; m01 : float; m02 : float;
  m10 : float; m11 : float; m12 : float;
  m20 : float; m21 : float; m22 : float }.

Definition identity : t := new 1 0 0 0 1 0 0 0 1.

(** Modelled from the spec: [Transform.scale] of paintvec. *)
Definition scale (s : Vec2.t) : t :=
  new (Vec2.x s) 0 0 0 (Vec2.y s) 0 0 0 1.

(** Modelled from the spec: [Transform.translate] of paintvec. *)
Definition translate (d : Vec2.t) : t :=
  new 1 0 0 0 1 0 (Vec2.x d) (Vec2.y d) 1.

(** Modelled from the spec: [a.merge(b)] of paintvec, the matrix product
    [a * b], each entry a sum of three products added from the left. *)
Definition merge (a b : t) : t :=
  new (m00 a * m00 b + m01 a * m10 b + m02 a * m20 b)
      (m00 a * m01 b + m01 a * m11 b + m02 a * m21 b)
      (m00 a * m02 b + m01 a * m12 b + m02 a * m22 b)
      (m10 a * m00 b + m11 a * m10 b + m12 a * m20 b)
      (m10 a * m01 b + m11 a * m11 b + m12 a * m21 b)
      (m10 a * m02 b + m11 a * m12 b + m12 a * m22 b)
      (m20 a * m00 b + m21 a * m10 b + m22 a * m20 b)
      (m20 a * m01 b + m21 a * m11 b + m22 a * m21 b)
      (m20 a * m02 b + m21 a * m12 b + m22 a * m22 b).

(** Modelled from the spec: [Vec2.transform] of paintvec, the image of a
    point: [(x, y, 1) * m] followed by the perspective division. *)
Definition apply (m : t) (p : Vec2.t) : Vec2.t :=
  let x := m00 m * Vec2.x p + m10 m * Vec2.y p + m20 m in
  let y := m01 m * Vec2.x p + m11 m * Vec2.y p + m21 m in
  let w := m02 m * Vec2.x p + m12 m * Vec2.y p + m22 m in
  Vec2.new (x / w) (y / w).

End Transform.

(** [context.canvas], of which the targets read the size. *)
Record HTMLCanvasElement := { width : float; height : float }.

Module Texture.
(** Modelled from the spec: [Texture] of [./Texture], as in the first
    layer. *)
Record t := new {
  texture : WebGL.WebGLTexture;
  size : Vec2.t;
  pixelType : WebGL.PixelType;
  pixelFormat : WebGL.PixelFormat }.
End Texture.

(** A model, known by its name only. *)
Definition Model := positive.

Module DrawTarget.

Record Fields := mkFields {
  scissor : option Rect.t;
  flipY : bool;
  transform : Transform.t }.

Record CanvasDrawTarget := mkCanvas { canvas_fields : Fields }.

Record TextureDrawTarget := mkTexture {
  texture_fields : Fields;
  framebuffer : WebGL.WebGLFramebuffer;
  _texture : option Texture.t }.

Inductive t :=
| Canvas (self : CanvasDrawTarget)
| Texture (self : TextureDrawTarget).

Coercion Canvas : CanvasDrawTarget >-> t.
Coercion Texture : TextureDrawTarget >-> t.

Definition fields (self : t) : Fields :=
  match self with
  | Canvas c => canvas_fields c
  | Texture x => texture_fields x
  end.

(** [get size()]. *)
Definition size (self : t) (canvas : HTMLCanvasElement) : Vec2.t :=
  match self with
  | Canvas _ => Vec2.new (width canvas) (height canvas)
  | Texture x =>
      match _texture x with
      | Some tex => Texture.size tex
      | None => Vec2.new0
      end
  end.

Definition pixelType (self : t) : WebGL.PixelType :=
  match self with
  | Canvas _ => "byte"%string
  | Texture x =>
      match _texture x with
      | Some tex => Texture.pixelType tex
      | None => "byte"%string
      end
  end.

Definition pixelFormat (self : t) : WebGL.PixelFormat :=
  match self with
  | Canvas _ => "rgba"%string
  | Texture x =>
      match _texture x with
      | Some tex => Texture.pixelFormat tex
      | None => "rgba"%string
      end
  end.

(** [_flipRect(rect)]. *)
Definition _flipRect (self : t) (canvas : HTMLCanvasElement) (rect : Rect.t) : Rect.t :=
  if flipY (fields self) then
    let left := Rect.left rect in
    let right := Rect.right rect in
    let top := Vec2.height (size self canvas) - Rect.bottom rect in
    let bottom := Vec2.height (size self canvas) - Rect.top rect in
    Rect.new (Vec2.new left top) (Vec2.new right bottom)
  else rect.

(** The rows of [rect] and the height of the target are whole numbers
    of pixels: [0 <= top <= bottom <= height < 2 ^ 53]. *)
Definition integer_rows (self : t) (canvas : HTMLCanvasElement) (rect : Rect.t) : Prop :=
  exists H t b : Z,
    (0 <= t <= b)%Z /\ (b <= H < 2 ^ 53)%Z /\
    Vec2.height (size self canvas) = ofZ H /\
    Rect.top rect = ofZ t /\ Rect.bottom rect = ofZ b.

(** What a method does, in order: the activation, a read-back, the
    call of the model. *)
Inductive Event :=
| use (self : t)
| gl_readPixels (x y width height : float)
                (format : WebGL.PixelFormat) (type : WebGL.PixelType)
                (data : WebGL.ArrayBufferView)
| model_draw (model : Model) (transform : Transform.t).

(** [readPixels(rect, data, opts)]. *)
Definition readPixels (self : t) (rect : Rect.t) (data : WebGL.ArrayBufferView)
    (opts : ReadPixelsOpts) (canvas : HTMLCanvasElement) : list Event :=
  let rect := _flipRect self canvas rect in
  [use self;
   gl_readPixels (Rect.left rect) (Rect.top rect) (Rect.width rect) (Rect.height rect)
                 (or_else (format opts) (pixelFormat self))
                 (or_else (type opts) (pixelType self)) data].

(** The matrix [draw] hands to the model (lines 45-51). *)
Definition effectiveTransform (self : t) (canvas : HTMLCanvasElement) : Transform.t :=
  let size := size self canvas in
  let transform :=
    Transform.merge
      (Transform.merge (transform (fields self))
         (Transform.scale (Vec2.new (2 / Vec2.width size) (2 / Vec2.height size))))
      (Transform.translate (Vec2.new1 (-1))) in
  if flipY (fields self)
  then Transform.merge transform (Transform.scale (Vec2.new 1 (-1)))
  else transform.

(** [draw(model)]. *)
Definition draw (self : t) (model : Model) (canvas : HTMLCanvasElement) : list Event :=
  [use self; model_draw model (effectiveTransform self canvas)].

End DrawTarget.

(** Examples: a canvas of 100 x 50 pixels and one of 49 x 49, a canvas
    target with and without the vertical flip, a texture target with no
    texture. *)
Definition canvas_100x50 : HTMLCanvasElement := {| width := 100; height := 50 |}.
Definition canvas_49x49 : HTMLCanvasElement := {| width := 49; height := 49 |}.
Definition flipped_target : DrawTarget.CanvasDrawTarget :=
  DrawTarget.mkCanvas (DrawTarget.mkFields None true Transform.identity).
Definition plain_target : DrawTarget.CanvasDrawTarget :=
  DrawTarget.mkCanvas (DrawTarget.mkFields None false Transform.identity).
Definition detached_target : DrawTarget.TextureDrawTarget :=
  DrawTarget.mkTexture (DrawTarget.mkFields None false Transform.identity) 1%positive None.

End Double.

(** ** What an activation aims at *)

(** The framebuffer [use] binds: [null] for the canvas, the framebuffer
    of a texture draw target. *)
Definition targetFramebuffer (self : DrawTarget.t) : option WebGL.WebGLFramebuffer :=
  match self with
  | Canvas _ => None
  | Texture x => Some (framebuffer x)
  end.

(** The arguments of the [gl.scissor] call of [use] for the scissor
    rectangle [sc] (lines 77-83). *)
Definition maskBox (self : DrawTarget.t) (ctx : Context) (sc : Rect.t) : WebGL.Box :=
  match Rect.intersection (Rect.intBounding (_flipRect self ctx sc))
                          (Rect.new (Vec2.new1 0) (size self ctx)) with
  | Some rect => (Rect.left rect, Rect.top rect, Rect.width rect, Rect.height rect)
  | None => (0, 0, 0, 0)
  end.

(** The registers that decide where pixels go: bound framebuffer,
    scissor test, scissor box, viewport. *)
Definition drawState (s : WebGL.State)
    : option WebGL.WebGLFramebuffer * bool * WebGL.Box * WebGL.Box :=
  (WebGL.framebufferBinding s, WebGL.scissorTest s, WebGL.scissorBox s,
   WebGL.viewportBox s).

(** The objects of the device: framebuffers, textures, attachments. *)
Definition resources (s : WebGL.State)
    : gset WebGL.WebGLFramebuffer * gset WebGL.WebGLTexture
      * gmap WebGL.WebGLFramebuffer WebGL.WebGLTexture :=
  (WebGL.framebuffers s, WebGL.textures s, WebGL.colorAttachment0 s).

(** A rectangle with integer corners. *)
Definition intRect (l t r b : Z) : Rect.t :=
  Rect.new (Vec2.new (lit l) (lit t)) (Vec2.new (lit r) (lit b)).

(** ** Examples *)

(** An example: the canvas of a 100 x 50 context, clipped to the
    rectangle with corner (90, 0), width 30 and height 10. *)
Definition example_context : Context :=
  {| canvas := {| width := lit 100; height := lit 50 |}; gl := WebGL.initial |}.
Definition example_clip : Rect.t :=
  Rect.new (Vec2.new (lit 90) (lit 0)) (Vec2.new (lit 120) (lit 10)).
Definition example_canvas (flip : bool) : CanvasDrawTarget :=
  mkCanvas (mkFields (Some example_clip) flip Transform.identity).

(** A texture and a target to which it has been attached, in a fresh
    context. *)
Definition example_texture : Texture.t :=
  Texture.new 7%positive (Vec2.new (lit 100) (lit 50)) "byte"%string "rgba"%string.
Definition example_attached : TextureDrawTarget * Context :=
  new_TextureDrawTarget (Some example_texture) example_context.

(** A clip rectangle that lies outside the 100 x 50 canvas. *)
Definition example_clip_outside : Rect.t :=
  Rect.new (Vec2.new (lit 200) (lit 200)) (Vec2.new (lit 210) (lit 210)).

(** A canvas target clipped to an integer rectangle inside the canvas. *)
Definition example_inner : CanvasDrawTarget :=
  mkCanvas (mkFields (Some (intRect 10 5 40 20)) true Transform.identity).

(** A canvas target whose global transform doubles both coordinates. *)
Definition example_scaled : CanvasDrawTarget :=
  mkCanvas (mkFields None true (Transform.scale (Vec2.new 2 2))).

(** * Properties *)

(** Points are equal when their coordinates are. *)
Lemma Vec2_eq (x y x' y' : number) :
  x = x' → y = y' → Vec2.new x y = Vec2.new x' y'.
Proof. intros -> ->. reflexivity. Qed.

(** ** Tactics *)

(** Closed equations between rationals: compare the fractions. *)
Ltac qc_eq := apply Qc_is_canon; vm_compute; reflexivity.

Ltac run_gl :=
  unfold use, super_use, clear, readPixels, set_texture, dispose, call,
    mbind, mret, GL_bind, GL_ret, WebGL.exec, WebGL.log; cbn.

(** Closed equations between points. *)
Ltac vec2_eq := vm_compute; f_equal; apply Vec2_eq; apply Qc_is_canon; reflexivity.


(** ** Activation *)

(** The calls a piece of device code issues are what it appends to the
    log. *)
Lemma issued_app {A} (m : GL A) (ctx : Context) (cs : list WebGL.Call) :
  WebGL.calls (gl (snd (m ctx))) = WebGL.calls (gl ctx) ++ cs →
  issued m ctx = cs.
Proof. intros H. unfold issued. rewrite H. apply drop_app_length. Qed.

Section Activation.

Variables (self : DrawTarget.t) (ctx : Context).

(** What [use] leaves in the scissor registers when a scissor is set. *)
Lemma use_scissor_registers (sc : Rect.t) :
  scissor (fields self) = Some sc →
  let s := gl (snd (use self ctx)) in
  WebGL.scissorTest s = true ∧
  WebGL.scissorBox s =
    match Rect.intersection (Rect.intBounding (_flipRect self ctx sc))
                            (Rect.new (Vec2.new1 0) (size self ctx)) with
    | Some rect => (Rect.left rect, Rect.top rect, Rect.width rect, Rect.height rect)
    | None => (0, 0, 0, 0)
    end.
Proof.
  intros Hsc. destruct self as [c|x]; cbn in Hsc; run_gl; rewrite Hsc;
    unfold _flipRect; cbn;
    (match goal with |- context [Rect.intersection ?a ?b] =>
       destruct (Rect.intersection a b) end);
    cbn; auto.
Qed.

Lemma use_viewport :
  WebGL.viewportBox (gl (snd (use self ctx))) =
    (0, 0, Vec2.x (size self ctx), Vec2.y (size self ctx)).
Proof.
  destruct self as [c|x]; run_gl;
    (match goal with |- context [scissor ?f] => destruct (scissor f) end);
    try (match goal with |- context [Rect.intersection ?a ?b] =>
           destruct (Rect.intersection a b) end);
    cbn; auto.
Qed.

Lemma use_canvas : canvas (snd (use self ctx)) = canvas ctx.
Proof.
  destruct self as [c|x]; run_gl;
    (match goal with |- context [scissor ?f] => destruct (scissor f) end);
    try (match goal with |- context [Rect.intersection ?a ?b] =>
           destruct (Rect.intersection a b) end);
    reflexivity.
Qed.

(** The calls of an activation: bind, then the scissor part, then the
    viewport. *)
Lemma use_issued :
  issued (use self) ctx =
    WebGL.bindFramebuffer
      match self with
      | Canvas _ => None
      | Texture x => Some (framebuffer x)
      end
    :: match scissor (fields self) with
       | Some sc =>
           [WebGL.enable WebGL.SCISSOR_TEST;
            match Rect.intersection (Rect.intBounding (_flipRect self ctx sc))
                                    (Rect.new (Vec2.new1 0) (size self ctx)) with
            | Some rect => WebGL.scissor (Rect.left rect) (Rect.top rect)
                                         (Rect.width rect) (Rect.height rect)
            | None => WebGL.scissor 0 0 0 0
            end]
       | None => [WebGL.disable WebGL.SCISSOR_TEST]
       end
    ++ [WebGL.viewport 0 0 (Vec2.x (size self ctx)) (Vec2.y (size self ctx))].
Proof.
  apply issued_app.
  destruct self as [c|x]; run_gl;
    (match goal with |- context [scissor ?f] => destruct (scissor f) end);
    unfold _flipRect; cbn;
    try (match goal with |- context [Rect.intersection ?a ?b] =>
           destruct (Rect.intersection a b) end);
    cbn; rewrite <- ?app_assoc; reflexivity.
Qed.

End Activation.

(** The size of a target depends on the canvas only, not on the device
    state. *)
Lemma size_canvas (self : DrawTarget.t) (ctx ctx' : Context) :
  canvas ctx' = canvas ctx → size self ctx' = size self ctx.
Proof. intros H. destruct self; cbn; [rewrite H|]; reflexivity. Qed.

(** What [Rect.intersection] returns has an area. *)
Lemma intersection_has_area (a b r : Rect.t) :
  Rect.intersection a b = Some r → 0 < Rect.width r ∧ 0 < Rect.height r.
Proof.
  unfold Rect.intersection.
  destruct (decide _) as [[Hx Hy]|_]; [|discriminate].
  intros [= <-]. unfold Rect.width, Rect.height, Rect.left, Rect.right, Rect.top, Rect.bottom.
  cbn [Rect.topLeft Rect.bottomRight Vec2.x Vec2.y].
  split; [apply (proj1 (Qclt_minus_iff _ _) Hx) | apply (proj1 (Qclt_minus_iff _ _) Hy)].
Qed.

(** The activation of the example canvas, call by call. *)
Example use_example_calls :
  issued (use (example_canvas true)) example_context =
    [WebGL.bindFramebuffer None;
     WebGL.enable WebGL.SCISSOR_TEST;
     WebGL.scissor (lit 90) (lit 40) (lit 10) (lit 10);
     WebGL.viewport 0 0 (lit 100) (lit 50)].
Proof. vm_compute. reflexivity. Qed.

(** A clip rectangle outside the canvas replaces the box of an earlier
    activation by the empty box. *)
Example use_example_outside :
  let ctx := snd (use (example_canvas true) example_context) in
  let self := mkCanvas (mkFields (Some example_clip_outside) true Transform.identity) in
  WebGL.scissorBox (gl ctx) = (lit 90, lit 40, lit 10, lit 10) ∧
  WebGL.scissorBox (gl (snd (use self ctx))) = (0, 0, 0, 0).
Proof. split; vm_compute; reflexivity. Qed.

(** C1.  With [scissor] set to a rectangle [C], activation turns the
    scissor test on and sets the scissor box to
    [intBounding (flipRect C)] intersected with the target rectangle
    [[0,0] x size]; when the two share no area the box becomes
    [(0,0,0,0)], whatever it was before. *)
Theorem use_sets_mask (self : DrawTarget.t) (ctx : Context) (C : Rect.t) :
  scissor (fields self) = Some C →
  let B := Rect.new (Vec2.new1 0) (size self ctx) in
  let s := gl (snd (use self ctx)) in
  WebGL.scissorTest s = true ∧
  match Rect.intersection (Rect.intBounding (_flipRect self ctx C)) B with
  | Some rect =>
      WebGL.scissorBox s =
        (Rect.left rect, Rect.top rect, Rect.width rect, Rect.height rect)
  | None => WebGL.scissorBox s = (0, 0, 0, 0)
  end.
Proof.
  intros Hsc B s.
  destruct (use_scissor_registers self ctx C Hsc) as [Ht Hb].
  split; [exact Ht|]. fold s in Hb. fold B in Hb.
  destruct (Rect.intersection _ B); exact Hb.
Qed.

Lemma use_sets_mask_witness :
  let self : t := example_canvas true in
  let ctx := example_context in
  let B := Rect.new (Vec2.new1 0) (size self ctx) in
  let s := gl (snd (use self ctx)) in
  WebGL.scissorTest s = true ∧
  match Rect.intersection (Rect.intBounding (_flipRect self ctx example_clip)) B with
  | Some rect =>
      WebGL.scissorBox s =
        (Rect.left rect, Rect.top rect, Rect.width rect, Rect.height rect)
  | None => WebGL.scissorBox s = (0, 0, 0, 0)
  end.
Proof. exact (use_sets_mask (example_canvas true) example_context example_clip eq_refl). Defined.

(** ** The flip correction *)

(** C9.  On a target with [flipY] unset the flip correction leaves every
    rectangle as it is. *)
Theorem flipRect_identity (self : DrawTarget.t) (ctx : Context) (R : Rect.t) :
  flipY (fields self) = false → _flipRect self ctx R = R.
Proof. intros Hflip. unfold _flipRect. rewrite Hflip. reflexivity. Qed.

Lemma flipRect_identity_witness :
  flipY (fields (example_canvas false)) = false ∧
  _flipRect (example_canvas false) example_context example_clip = example_clip.
Proof.
  split; [reflexivity|].
  apply (flipRect_identity (example_canvas false) example_context example_clip).
  reflexivity.
Defined.

(** C5.  On a target of size (100, 50) clipped to the rectangle with
    corner (90, 0), width 30 and height 10: without [flipY] the scissor
    box is (90, 0, 10, 10); with [flipY] the flipped rectangle has top 40
    and bottom 50 and the scissor box is (90, 40, 10, 10). *)
Theorem use_mask_scenario (self : DrawTarget.t) (ctx : Context) :
  size self ctx = Vec2.new (lit 100) (lit 50) →
  scissor (fields self) = Some example_clip →
  let s := gl (snd (use self ctx)) in
  (flipY (fields self) = false →
   WebGL.scissorBox s = (lit 90, lit 0, lit 10, lit 10)) ∧
  (flipY (fields self) = true →
   Rect.top (_flipRect self ctx example_clip) = lit 40 ∧
   Rect.bottom (_flipRect self ctx example_clip) = lit 50 ∧
   WebGL.scissorBox s = (lit 90, lit 40, lit 10, lit 10)).
Proof.
  intros Hsize Hsc s.
  destruct (use_scissor_registers self ctx example_clip Hsc) as [_ Hb].
  fold s in Hb. rewrite Hb. clear Hb s.
  unfold _flipRect. rewrite Hsize.
  split; intros Hflip; rewrite Hflip.
  - vm_compute. reflexivity.
  - split; [qc_eq|]. split; [qc_eq|]. vm_compute. reflexivity.
Qed.

Lemma use_mask_scenario_witness :
  WebGL.scissorBox (gl (snd (use (example_canvas false) example_context))) =
    (lit 90, lit 0, lit 10, lit 10) ∧
  Rect.top (_flipRect (example_canvas true) example_context example_clip) = lit 40 ∧
  Rect.bottom (_flipRect (example_canvas true) example_context example_clip) = lit 50 ∧
  WebGL.scissorBox (gl (snd (use (example_canvas true) example_context))) =
    (lit 90, lit 40, lit 10, lit 10).
Proof.
  split.
  - apply (use_mask_scenario (example_canvas false) example_context eq_refl eq_refl).
    reflexivity.
  - apply (use_mask_scenario (example_canvas true) example_context eq_refl eq_refl).
    reflexivity.
Defined.

(** ** The texture of a [TextureDrawTarget] *)

(** C6.  After a texture is assigned to a texture draw target, [size],
    [pixelType] and [pixelFormat] are those of the texture; after
    [undefined] is assigned, [size] is (0, 0), [pixelType] is "byte" and
    [pixelFormat] is "rgba". *)
Theorem set_texture_readback (self : TextureDrawTarget) (ctx : Context) :
  (∀ tex : Texture.t,
     let self' := fst (set_texture self (Some tex) ctx) in
     let ctx' := snd (set_texture self (Some tex) ctx) in
     texture self' = Some tex ∧
     size self' ctx' = Texture.size tex ∧
     pixelType self' = Texture.pixelType tex ∧
     pixelFormat self' = Texture.pixelFormat tex) ∧
  (let self' := fst (set_texture self None ctx) in
   let ctx' := snd (set_texture self None ctx) in
   texture self' = None ∧
   size self' ctx' = Vec2.new 0 0 ∧
   pixelType self' = "byte"%string ∧
   pixelFormat self' = "rgba"%string).
Proof. split; [intros tex|]; cbn; auto. Qed.

(** C7, as the code has it.  Assigning a texture binds the framebuffer of
    the target and attaches the storage of the texture to it: these two
    calls and no other.  Assigning [undefined] issues no call and leaves
    the device as it is; only the field of the target changes. *)
Theorem set_texture_rebinds (self : TextureDrawTarget) (ctx : Context) :
  (∀ tex : Texture.t,
     let ctx' := snd (set_texture self (Some tex) ctx) in
     issued (set_texture self (Some tex)) ctx =
       [WebGL.bindFramebuffer (Some (framebuffer self));
        WebGL.framebufferTexture2D (Texture.texture tex)] ∧
     WebGL.framebufferBinding (gl ctx') = Some (framebuffer self) ∧
     WebGL.colorAttachment0 (gl ctx') !! framebuffer self = Some (Texture.texture tex)) ∧
  set_texture self None ctx =
    (mkTexture (texture_fields self) (framebuffer self) None, ctx).
Proof.
  split; [intros tex ctx'|reflexivity].
  split; [|split].
  - apply issued_app. run_gl. rewrite <- app_assoc. reflexivity.
  - reflexivity.
  - run_gl. apply lookup_insert_eq.
Qed.

(** The construction of the example target, call by call. *)
Example new_TextureDrawTarget_calls :
  issued (new_TextureDrawTarget (Some example_texture)) example_context =
    [WebGL.createFramebuffer 1%positive;
     WebGL.bindFramebuffer (Some 1%positive);
     WebGL.framebufferTexture2D 7%positive].
Proof. vm_compute. reflexivity. Qed.

(** C7 fails for the empty value: after [undefined] is assigned no call
    has been issued, and the framebuffer of the target still carries the
    storage of the texture that was attached before. *)
Lemma set_texture_empty_keeps_attachment :
  let self := fst example_attached in
  let ctx := snd example_attached in
  let self' := fst (set_texture self None ctx) in
  let ctx' := snd (set_texture self None ctx) in
  texture self = Some example_texture ∧
  texture self' = None ∧
  issued (set_texture self None) ctx = [] ∧
  ¬ In (WebGL.bindFramebuffer (Some (framebuffer self)))
       (issued (set_texture self None) ctx) ∧
  WebGL.colorAttachment0 (gl ctx') !! framebuffer self' =
    Some (Texture.texture example_texture).
Proof.
  cbv zeta. split; [reflexivity|]. split; [reflexivity|].
  split; [vm_compute; reflexivity|].
  split; [vm_compute; tauto|]. vm_compute. reflexivity.
Qed.

(** ** Disposal *)

(** C8.  Disposing a texture draw target issues one call, the deletion of
    its framebuffer: the framebuffer is gone, and no texture is deleted.
    Disposing a canvas draw target returns without a call and leaves the
    context as it is. *)
Theorem dispose_effects :
  (∀ (self : TextureDrawTarget) (ctx : Context),
     let ctx' := snd (dispose self ctx) in
     issued (dispose self) ctx = [WebGL.deleteFramebuffer (framebuffer self)] ∧
     (framebuffer self ∉ WebGL.framebuffers (gl ctx')) ∧
     WebGL.textures (gl ctx') = WebGL.textures (gl ctx)) ∧
  (∀ (self : CanvasDrawTarget) (ctx : Context), dispose self ctx = (tt, ctx)).
Proof.
  split; [intros self ctx ctx'|reflexivity].
  split; [|split].
  - apply issued_app. reflexivity.
  - run_gl. rewrite elem_of_difference, elem_of_singleton. tauto.
  - reflexivity.
Qed.

(** ** The matrix handed to the model *)

Section Transforms.

Lemma Number_div_one (a w : number) : w = 1 → Number_div a w = Some a.
Proof.
  intros ->. unfold Number_div. destruct (decide (1 = 0)) as [H|_].
  - discriminate H.
  - f_equal. field. discriminate.
Qed.

Lemma Number_div_zero (a : number) : Number_div a 0 = None.
Proof. unfold Number_div. destruct (decide (0 = 0)); [reflexivity|contradiction]. Qed.

Lemma Number_div_nonzero (a b : number) : b ≠ 0 → Number_div a b = Some (a / b).
Proof. intros Hb. unfold Number_div. destruct (decide (b = 0)); [contradiction|reflexivity]. Qed.

(** Merging with an affine matrix on the right: the image of a point
    under the product is the image under the left matrix, mapped by
    the right one. *)
Lemma apply_merge_affine (g m : Transform.t) (p : Vec2.t) :
  Transform.isAffine m →
  Transform.apply (Transform.merge g m) p = Transform.apply g p ≫= Transform.apply m.
Proof.
  intros (H02 & H12 & H22).
  destruct g as [g00 g01 g02 g10 g11 g12 g20 g21 g22].
  destruct m as [a00 a01 a02 a10 a11 a12 a20 a21 a22].
  destruct p as [x y]. cbn in H02, H12, H22. subst a02 a12 a22.
  unfold Transform.apply, Transform.merge. cbn.
  set (w := g02 * x + g12 * y + g22).
  replace ((g00 * 0 + g01 * 0 + g02 * 1) * x + (g10 * 0 + g11 * 0 + g12 * 1) * y
           + (g20 * 0 + g21 * 0 + g22 * 1)) with w by (unfold w; ring).
  destruct (decide (w = 0)) as [Hw|Hw].
  - rewrite Hw, !Number_div_zero. reflexivity.
  - rewrite !(Number_div_nonzero _ w Hw). cbn.
    rewrite !Number_div_one by ring. cbn. subst w.
    f_equal. apply Vec2_eq; field; exact Hw.
Qed.

Lemma scale_affine (s : Vec2.t) : Transform.isAffine (Transform.scale s).
Proof. repeat split. Qed.

Lemma translate_affine (d : Vec2.t) : Transform.isAffine (Transform.translate d).
Proof. repeat split. Qed.

Lemma apply_identity (p : Vec2.t) : Transform.apply Transform.identity p = Some p.
Proof.
  destruct p as [x y]. unfold Transform.apply. cbn.
  rewrite !Number_div_one by ring. cbn. f_equal. f_equal; ring.
Qed.

Lemma apply_scale (s p : Vec2.t) :
  Transform.apply (Transform.scale s) p =
    Some (Vec2.new (Vec2.x s * Vec2.x p) (Vec2.y s * Vec2.y p)).
Proof.
  destruct p as [x y]. unfold Transform.apply. cbn.
  rewrite !Number_div_one by ring. cbn. f_equal. f_equal; ring.
Qed.

Lemma apply_translate (d p : Vec2.t) :
  Transform.apply (Transform.translate d) p =
    Some (Vec2.new (Vec2.x p + Vec2.x d) (Vec2.y p + Vec2.y d)).
Proof.
  destruct p as [x y]. unfold Transform.apply. cbn.
  rewrite !Number_div_one by ring. cbn. f_equal. f_equal; ring.
Qed.

End Transforms.

Section Draw.

Variables (self : DrawTarget.t) (ctx : Context).

Let W := Vec2.width (size self ctx).
Let H := Vec2.height (size self ctx).

Hypothesis HW : W ≠ 0.
Hypothesis HH : H ≠ 0.

Lemma effectiveTransform_defined :
  effectiveTransform self ctx =
    Some (let m := Transform.merge
                     (Transform.merge (transform (fields self)) (normScale self ctx))
                     normTranslate in
          if flipY (fields self) then Transform.merge m flipScale else m).
Proof.
  unfold effectiveTransform, normScale. fold W H.
  rewrite (Number_div_nonzero 2 W HW), (Number_div_nonzero 2 H HH). reflexivity.
Qed.

(** Pointwise, the merged matrix is the chain of its factors, the
    global transform first. *)
Lemma effectiveTransform_chain (eff : Transform.t) (p : Vec2.t) :
  effectiveTransform self ctx = Some eff →
  Transform.apply eff p =
    ((Transform.apply (transform (fields self)) p ≫= Transform.apply (normScale self ctx))
       ≫= Transform.apply normTranslate) ≫= flipStep self.
Proof.
  rewrite effectiveTransform_defined. intros [= <-]. cbv zeta. unfold flipStep.
  destruct (flipY (fields self)).
  - rewrite !apply_merge_affine
      by (apply scale_affine || apply translate_affine). reflexivity.
  - rewrite !apply_merge_affine
      by (apply scale_affine || apply translate_affine).
    destruct ((Transform.apply (transform (fields self)) p ≫= Transform.apply (normScale self ctx))
                ≫= Transform.apply normTranslate); reflexivity.
Qed.

End Draw.

(** The matrix of [draw] depends on the canvas only, so [draw] hands the
    model the matrix computed before the activation. *)
Lemma effectiveTransform_canvas (self : DrawTarget.t) (ctx ctx' : Context) :
  canvas ctx' = canvas ctx → effectiveTransform self ctx' = effectiveTransform self ctx.
Proof. intros Hc. unfold effectiveTransform. rewrite (size_canvas self ctx ctx' Hc). reflexivity. Qed.

Lemma draw_delegates (self : DrawTarget.t) (model : Model.t) (ctx : Context) (eff : Transform.t) :
  effectiveTransform self ctx = Some eff →
  draw self model ctx = Some (Model.draw model eff (snd (use self ctx))).
Proof.
  intros Heff. unfold draw.
  rewrite (effectiveTransform_canvas self ctx _ (use_canvas self ctx)), Heff.
  reflexivity.
Qed.

(** C3, as the code has it.  On a target that has an area, the matrix
    [draw] hands to the model is the global transform merged with
    Scale(2/width, 2/height), then Translate(-1, -1), then the vertical
    flip if [flipY] is set; the global transform is the innermost factor,
    applied first to a point, before normalisation and flip. *)
Theorem draw_transform_composition (self : DrawTarget.t) (ctx : Context) (model : Model.t) :
  Vec2.width (size self ctx) ≠ 0 →
  Vec2.height (size self ctx) ≠ 0 →
  ∃ eff : Transform.t,
    eff = (let m := Transform.merge
                      (Transform.merge (transform (fields self)) (normScale self ctx))
                      normTranslate in
           if flipY (fields self) then Transform.merge m flipScale else m) ∧
    draw self model ctx = Some (Model.draw model eff (snd (use self ctx))) ∧
    ∀ p : Vec2.t,
      Transform.apply eff p =
        ((Transform.apply (transform (fields self)) p
            ≫= Transform.apply (normScale self ctx))
           ≫= Transform.apply normTranslate)
          ≫= flipStep self.
Proof.
  intros HW HH.
  pose proof (effectiveTransform_defined self ctx HW HH) as Heff.
  eexists. split; [reflexivity|].
  split; [exact (draw_delegates self model ctx _ Heff)|].
  intros p. exact (effectiveTransform_chain self ctx HW HH _ p Heff).
Qed.

Lemma draw_transform_composition_witness :
  let self : t := example_scaled in
  let ctx := example_context in
  let model := Model.new (λ _, mret tt) in
  ∃ eff : Transform.t,
    eff = (let m := Transform.merge
                      (Transform.merge (transform (fields self)) (normScale self ctx))
                      normTranslate in
           if flipY (fields self) then Transform.merge m flipScale else m) ∧
    draw self model ctx = Some (Model.draw model eff (snd (use self ctx))) ∧
    ∀ p : Vec2.t,
      Transform.apply eff p =
        ((Transform.apply (transform (fields self)) p
            ≫= Transform.apply (normScale self ctx))
           ≫= Transform.apply normTranslate)
          ≫= flipStep self.
Proof.
  apply (draw_transform_composition example_scaled example_context
           (Model.new (λ _, mret tt))); discriminate.
Defined.

(** C3 fails where it places the global transform: on a 100 x 50 canvas
    with a global transform that doubles coordinates, [draw] sends pixel
    (50, 25), the centre, to the corner (1, -1); normalising and flipping
    first and applying the global transform last would leave it at the
    centre (0, 0). *)
Lemma draw_global_transform_not_last :
  let self : t := example_scaled in
  let ctx := example_context in
  let p := Vec2.new (lit 50) (lit 25) in
  let image := effectiveTransform self ctx ≫= λ eff, Transform.apply eff p in
  let global_last :=
    (effectiveTransform (set_transform self Transform.identity) ctx
       ≫= λ norm, Transform.apply norm p)
      ≫= Transform.apply (transform (fields self)) in
  image = Some (Vec2.new 1 (-1)) ∧
  global_last = Some (Vec2.new 0 0) ∧
  image ≠ global_last.
Proof.
  cbv zeta.
  assert (H1 : (effectiveTransform example_scaled example_context
                  ≫= λ eff, Transform.apply eff (Vec2.new (lit 50) (lit 25)))
               = Some (Vec2.new 1 (-1))) by vec2_eq.
  assert (H2 : ((effectiveTransform (set_transform example_scaled Transform.identity)
                   example_context
                   ≫= λ norm, Transform.apply norm (Vec2.new (lit 50) (lit 25)))
                  ≫= Transform.apply (transform (fields example_scaled)))
               = Some (Vec2.new 0 0)) by vec2_eq.
  split; [exact H1|]. split; [exact H2|].
  rewrite H1, H2. intros [=].
Qed.

(** * Further properties of the draw targets *)

(** ** Activation: the registers it sets and what it leaves alone *)

(** The registers after an activation, in closed form. *)
Lemma use_drawState (self : DrawTarget.t) (ctx : Context) :
  drawState (gl (snd (use self ctx))) =
    (targetFramebuffer self,
     match scissor (fields self) with Some _ => true | None => false end,
     match scissor (fields self) with
     | Some sc => maskBox self ctx sc
     | None => WebGL.scissorBox (gl ctx)
     end,
     (0, 0, Vec2.x (size self ctx), Vec2.y (size self ctx))).
Proof.
  unfold drawState, maskBox.
  destruct self as [c|x]; run_gl;
    (match goal with |- context [scissor ?f] => destruct (scissor f) end);
    unfold _flipRect; cbn;
    try (match goal with |- context [Rect.intersection ?a ?b] =>
           destruct (Rect.intersection a b) end);
    reflexivity.
Qed.

Lemma use_resources (self : DrawTarget.t) (ctx : Context) :
  resources (gl (snd (use self ctx))) = resources (gl ctx) ∧
  WebGL.colorClearValue (gl (snd (use self ctx))) = WebGL.colorClearValue (gl ctx).
Proof.
  unfold resources.
  destruct self as [c|x]; run_gl;
    (match goal with |- context [scissor ?f] => destruct (scissor f) end);
    try (match goal with |- context [Rect.intersection ?a ?b] =>
           destruct (Rect.intersection a b) end);
    split; reflexivity.
Qed.

Lemma flipRect_canvas (self : DrawTarget.t) (ctx ctx' : Context) (R : Rect.t) :
  canvas ctx' = canvas ctx → _flipRect self ctx' R = _flipRect self ctx R.
Proof. intros Hc. unfold _flipRect. rewrite (size_canvas self ctx ctx' Hc). reflexivity. Qed.

Lemma maskBox_canvas (self : DrawTarget.t) (ctx ctx' : Context) (sc : Rect.t) :
  canvas ctx' = canvas ctx → maskBox self ctx' sc = maskBox self ctx sc.
Proof.
  intros Hc. unfold maskBox.
  rewrite (size_canvas self ctx ctx' Hc), (flipRect_canvas self ctx ctx' sc Hc).
  reflexivity.
Qed.

(** X1.  With no scissor set, activation switches the scissor test off
    and issues no [gl.scissor] call: the scissor box stays what the last
    user of the device left, and the calls are the bind, the disable and
    the viewport. *)
Theorem use_without_scissor (self : DrawTarget.t) (ctx : Context) :
  scissor (fields self) = None →
  let s := gl (snd (use self ctx)) in
  WebGL.scissorTest s = false ∧
  WebGL.scissorBox s = WebGL.scissorBox (gl ctx) ∧
  issued (use self) ctx =
    [WebGL.bindFramebuffer (targetFramebuffer self);
     WebGL.disable WebGL.SCISSOR_TEST;
     WebGL.viewport 0 0 (Vec2.x (size self ctx)) (Vec2.y (size self ctx))].
Proof.
  intros Hsc s. pose proof (use_drawState self ctx) as Hd.
  pose proof (use_issued self ctx) as Hi. rewrite Hsc in Hd, Hi.
  unfold drawState in Hd. fold s in Hd. injection Hd as _ Ht Hb _.
  split; [exact Ht|]. split; [exact Hb|].
  rewrite Hi. destruct self; reflexivity.
Qed.

Lemma use_without_scissor_witness :
  let self : DrawTarget.t := example_scaled in
  let ctx := snd (use (example_canvas true) example_context) in
  let s := gl (snd (use self ctx)) in
  WebGL.scissorTest s = false ∧
  WebGL.scissorBox s = WebGL.scissorBox (gl ctx) ∧
  issued (use self) ctx =
    [WebGL.bindFramebuffer (targetFramebuffer self);
     WebGL.disable WebGL.SCISSOR_TEST;
     WebGL.viewport 0 0 (Vec2.x (size self ctx)) (Vec2.y (size self ctx))].
Proof.
  exact (use_without_scissor example_scaled
           (snd (use (example_canvas true) example_context)) eq_refl).
Defined.

(** X2.  Whatever the scissor, activation binds the framebuffer of the
    target ([null] for the canvas) and sets the viewport to the whole
    target, [(0, 0, size.x, size.y)]: the current size of the canvas, the
    size of the attached texture, or (0, 0) when none is attached. *)
Theorem use_binds_and_sizes (self : DrawTarget.t) (ctx : Context) :
  let s := gl (snd (use self ctx)) in
  WebGL.framebufferBinding s = targetFramebuffer self ∧
  WebGL.viewportBox s =
    match self with
    | Canvas _ => (0, 0, width (canvas ctx), height (canvas ctx))
    | Texture x =>
        match _texture x with
        | Some tex => (0, 0, Vec2.x (Texture.size tex), Vec2.y (Texture.size tex))
        | None => (0, 0, 0, 0)
        end
    end.
Proof.
  intros s. pose proof (use_drawState self ctx) as Hd.
  unfold drawState in Hd. fold s in Hd. injection Hd as Hf _ _ Hv.
  split; [exact Hf|]. rewrite Hv.
  destruct self as [c|x]; cbn; [reflexivity|].
  unfold texture. destruct (_texture x); reflexivity.
Qed.

(** Sequencing, and what one call does to the log and the objects. *)
Lemma GL_bind_snd {A B} (m : GL A) (k : A → GL B) (ctx : Context) :
  snd ((m ≫= k) ctx) = snd (k (fst (m ctx)) (snd (m ctx))).
Proof. unfold mbind, GL_bind. destruct (m ctx). reflexivity. Qed.

Lemma use_calls (self : DrawTarget.t) (ctx : Context) :
  WebGL.calls (gl (snd (use self ctx))) = WebGL.calls (gl ctx) ++ issued (use self) ctx.
Proof.
  rewrite use_issued.
  destruct self as [c|x]; run_gl;
    (match goal with |- context [scissor ?f] => destruct (scissor f) end);
    unfold _flipRect; cbn;
    try (match goal with |- context [Rect.intersection ?a ?b] =>
           destruct (Rect.intersection a b) end);
    cbn; rewrite <- ?app_assoc; reflexivity.
Qed.

(** X3.  Activation, [clear] and [readPixels] never create or delete a
    framebuffer or a texture and never change an attachment; activation
    and [readPixels] also leave the clear colour alone.  None of them
    touches the canvas. *)
Theorem drawing_keeps_resources (self : DrawTarget.t) (ctx : Context)
    (color : Color.t) (rect : Rect.t) (data : WebGL.ArrayBufferView)
    (opts : ReadPixelsOpts) :
  let after_use := snd (use self ctx) in
  let after_clear := snd (clear self color ctx) in
  let after_read := snd (readPixels self rect data opts ctx) in
  (resources (gl after_use) = resources (gl ctx) ∧
   resources (gl after_clear) = resources (gl ctx) ∧
   resources (gl after_read) = resources (gl ctx)) ∧
  (WebGL.colorClearValue (gl after_use) = WebGL.colorClearValue (gl ctx) ∧
   WebGL.colorClearValue (gl after_read) = WebGL.colorClearValue (gl ctx)) ∧
  (canvas after_use = canvas ctx ∧ canvas after_clear = canvas ctx ∧
   canvas after_read = canvas ctx).
Proof.
  intros after_use after_clear after_read.
  destruct (use_resources self ctx) as [Hr Hc].
  pose proof (use_canvas self ctx) as Hk.
  fold after_use in Hr, Hc, Hk.
  assert (Hclear : after_clear =
            snd (call (WebGL.clear WebGL.COLOR_BUFFER_BIT)
                   (snd (call (WebGL.clearColor (Color.r color) (Color.g color)
                                                (Color.b color) (Color.a color))
                           after_use)))).
  { unfold after_clear, clear. rewrite !GL_bind_snd. reflexivity. }
  assert (Hread : after_read =
            snd (call (let rect := _flipRect self after_use rect in
                       WebGL.readPixels (Rect.left rect) (Rect.top rect)
                         (Rect.width rect) (Rect.height rect)
                         (or_else (format opts) (pixelFormat self))
                         (or_else (type opts) (pixelType self)) data)
                   after_use)).
  { unfold after_read, readPixels. rewrite GL_bind_snd. reflexivity. }
  assert (Hrr : resources (gl after_read) = resources (gl after_use))
    by (rewrite Hread; reflexivity).
  assert (Hrc : WebGL.colorClearValue (gl after_read) = WebGL.colorClearValue (gl after_use))
    by (rewrite Hread; reflexivity).
  repeat split.
  - exact Hr.
  - rewrite Hclear, <- Hr. reflexivity.
  - rewrite Hrr. exact Hr.
  - exact Hc.
  - rewrite Hrc. exact Hc.
  - exact Hk.
  - rewrite Hclear, <- Hk. reflexivity.
  - rewrite Hread, <- Hk. reflexivity.
Qed.

(** X4.  An activation sets up its own drawing state: after another
    target has been activated in between, activating a target with a
    scissor gives the same bound framebuffer, scissor test, scissor box
    and viewport as activating it directly; without a scissor only the
    (disabled) scissor box is inherited.  Activating twice is the same as
    activating once. *)
Theorem use_reestablishes (self other : DrawTarget.t) (ctx : Context) :
  let direct := gl (snd (use self ctx)) in
  let between := gl (snd (use other ctx)) in
  let after := gl (snd (use self (snd (use other ctx)))) in
  match scissor (fields self) with
  | Some _ => drawState after = drawState direct
  | None =>
      WebGL.framebufferBinding after = WebGL.framebufferBinding direct ∧
      WebGL.scissorTest after = false ∧
      WebGL.viewportBox after = WebGL.viewportBox direct ∧
      WebGL.scissorBox after = WebGL.scissorBox between
  end ∧
  drawState (gl (snd (use self (snd (use self ctx))))) = drawState direct.
Proof.
  intros direct between after.
  pose proof (use_drawState self ctx) as Hd. fold direct in Hd.
  pose proof (use_drawState self (snd (use other ctx))) as Ha. fold after between in Ha.
  pose proof (use_drawState self (snd (use self ctx))) as Hs. fold direct in Hs.
  rewrite (size_canvas self ctx _ (use_canvas other ctx)) in Ha.
  rewrite (size_canvas self ctx _ (use_canvas self ctx)) in Hs.
  split.
  - destruct (scissor (fields self)) as [sc|].
    + rewrite (maskBox_canvas self ctx _ sc (use_canvas other ctx)) in Ha.
      rewrite Ha, Hd. reflexivity.
    + unfold drawState in Ha, Hd.
      injection Ha as Ha1 Ha2 Ha3 Ha4. injection Hd as Hd1 Hd2 Hd3 Hd4.
      rewrite Ha1, Ha2, Ha3, Ha4, Hd1, Hd4. auto.
  - rewrite Hs, Hd. destruct (scissor (fields self)) as [sc|].
    + rewrite (maskBox_canvas self ctx _ sc (use_canvas self ctx)). reflexivity.
    + unfold drawState in Hd. injection Hd as _ _ Hd3 _. rewrite Hd3. reflexivity.
Qed.

(** ** [clear] *)

(** X5.  [clear] activates the target and then issues [clearColor] with
    the four channels of the colour and [clear(COLOR_BUFFER_BIT)], in
    this order and nothing else: the clear colour of the device is the
    colour, and the drawing state is that of the activation, so what is
    cleared is the target and only inside its scissor. *)
Theorem clear_effects (self : DrawTarget.t) (color : Color.t) (ctx : Context) :
  let s := gl (snd (clear self color ctx)) in
  issued (clear self color) ctx =
    issued (use self) ctx ++
      [WebGL.clearColor (Color.r color) (Color.g color) (Color.b color) (Color.a color);
       WebGL.clear WebGL.COLOR_BUFFER_BIT] ∧
  WebGL.colorClearValue s =
    (Color.r color, Color.g color, Color.b color, Color.a color) ∧
  drawState s = drawState (gl (snd (use self ctx))).
Proof.
  intros s.
  assert (Hclear : snd (clear self color ctx) =
            snd (call (WebGL.clear WebGL.COLOR_BUFFER_BIT)
                   (snd (call (WebGL.clearColor (Color.r color) (Color.g color)
                                                (Color.b color) (Color.a color))
                           (snd (use self ctx)))))).
  { unfold clear. rewrite !GL_bind_snd. reflexivity. }
  unfold s. split; [|rewrite Hclear; split; reflexivity].
  apply issued_app. rewrite Hclear. cbn.
  rewrite use_calls, <- !app_assoc. reflexivity.
Qed.

(** ** The scissor box as a region of the target *)

Section MathLemmas.

Lemma Math_max_l (a b : number) : a ≤ Math_max a b.
Proof.
  unfold Math_max. destruct (decide (a < b)) as [H|H].
  - apply Qclt_le_weak, H.
  - apply Qcle_refl.
Qed.

Lemma Math_max_r (a b : number) : b ≤ Math_max a b.
Proof.
  unfold Math_max. destruct (decide (a < b)) as [H|H].
  - apply Qcle_refl.
  - apply Qcnot_lt_le, H.
Qed.

Lemma Math_min_l (a b : number) : Math_min a b ≤ a.
Proof.
  unfold Math_min. destruct (decide (b < a)) as [H|H].
  - apply Qclt_le_weak, H.
  - apply Qcle_refl.
Qed.

Lemma Math_min_r (a b : number) : Math_min a b ≤ b.
Proof.
  unfold Math_min. destruct (decide (b < a)) as [H|H].
  - apply Qcle_refl.
  - apply Qcnot_lt_le, H.
Qed.

Lemma Math_max_absorb (a b : number) : b ≤ a → Math_max a b = a.
Proof.
  intros H. unfold Math_max. destruct (decide (a < b)) as [H'|_]; [|reflexivity].
  exfalso. exact (Qcle_not_lt _ _ H H').
Qed.

Lemma Math_min_absorb (a b : number) : a ≤ b → Math_min a b = a.
Proof.
  intros H. unfold Math_min. destruct (decide (b < a)) as [H'|_]; [|reflexivity].
  exfalso. exact (Qcle_not_lt _ _ H H').
Qed.

End MathLemmas.

(** What [Rect.intersection] returns lies in both rectangles. *)
Lemma intersection_inside (a b r : Rect.t) :
  Rect.intersection a b = Some r →
  (Rect.left a ≤ Rect.left r ∧ Rect.left b ≤ Rect.left r) ∧
  (Rect.top a ≤ Rect.top r ∧ Rect.top b ≤ Rect.top r) ∧
  (Rect.right r ≤ Rect.right a ∧ Rect.right r ≤ Rect.right b) ∧
  (Rect.bottom r ≤ Rect.bottom a ∧ Rect.bottom r ≤ Rect.bottom b).
Proof.
  unfold Rect.intersection. destruct (decide _) as [_|_]; [|discriminate].
  intros [= <-]. unfold Rect.left, Rect.right, Rect.top, Rect.bottom.
  cbn [Rect.topLeft Rect.bottomRight Vec2.x Vec2.y].
  repeat split;
    first [apply Math_max_l | apply Math_max_r | apply Math_min_l | apply Math_min_r].
Qed.

(** An empty rectangle meets nothing. *)
Lemma intersection_empty_r (a b : Rect.t) :
  Rect.right b ≤ Rect.left b ∨ Rect.bottom b ≤ Rect.top b →
  Rect.intersection a b = None.
Proof.
  intros Hb. unfold Rect.intersection.
  destruct (decide _) as [[Hx Hy]|_]; [exfalso|reflexivity].
  destruct Hb as [Hb|Hb].
  - apply (Qclt_not_le _ _ Hx).
    eapply Qcle_trans; [apply Math_min_r|].
    eapply Qcle_trans; [exact Hb|apply Math_max_r].
  - apply (Qclt_not_le _ _ Hy).
    eapply Qcle_trans; [apply Math_min_r|].
    eapply Qcle_trans; [exact Hb|apply Math_max_r].
Qed.

(** X6.  On a target whose size is not negative, the scissor box that an
    activation sets never leaves the target: its corner is at or after
    (0, 0), its width and height are not negative, and it ends at or
    before [(size.x, size.y)], however large or far away the scissor
    rectangle is. *)
Theorem use_mask_within_target (self : DrawTarget.t) (ctx : Context) (sc : Rect.t) :
  scissor (fields self) = Some sc →
  0 ≤ Vec2.x (size self ctx) →
  0 ≤ Vec2.y (size self ctx) →
  ∃ x y w h : number,
    WebGL.scissorBox (gl (snd (use self ctx))) = (x, y, w, h) ∧
    0 ≤ x ∧ 0 ≤ y ∧ 0 ≤ w ∧ 0 ≤ h ∧
    x + w ≤ Vec2.x (size self ctx) ∧ y + h ≤ Vec2.y (size self ctx).
Proof.
  intros Hsc Hx Hy.
  destruct (use_scissor_registers self ctx sc Hsc) as [_ Hb]. cbv zeta in Hb.
  destruct (Rect.intersection _ _) as [r|] eqn:Hi.
  - exists (Rect.left r), (Rect.top r), (Rect.width r), (Rect.height r).
    split; [exact Hb|].
    destruct (intersection_has_area _ _ _ Hi) as [Hw Hh].
    destruct (intersection_inside _ _ _ Hi) as ((_ & Hl) & (_ & Ht) & (_ & Hr) & (_ & Hbt)).
    repeat split.
    + exact Hl.
    + exact Ht.
    + apply Qclt_le_weak, Hw.
    + apply Qclt_le_weak, Hh.
    + replace (Rect.left r + Rect.width r) with (Rect.right r)
        by (unfold Rect.width; ring). exact Hr.
    + replace (Rect.top r + Rect.height r) with (Rect.bottom r)
        by (unfold Rect.height; ring). exact Hbt.
  - exists 0, 0, 0, 0. split; [exact Hb|].
    replace (0 + 0) with (Q2Qc 0) by ring.
    repeat split; try apply Qcle_refl; assumption.
Qed.

Lemma use_mask_within_target_witness :
  let self : DrawTarget.t := example_canvas true in
  ∃ x y w h : number,
    WebGL.scissorBox (gl (snd (use self example_context))) = (x, y, w, h) ∧
    0 ≤ x ∧ 0 ≤ y ∧ 0 ≤ w ∧ 0 ≤ h ∧
    x + w ≤ Vec2.x (size self example_context) ∧
    y + h ≤ Vec2.y (size self example_context).
Proof.
  apply (use_mask_within_target (example_canvas true) example_context example_clip);
    [reflexivity | discriminate | discriminate].
Defined.

(** X7.  A texture draw target to which no texture is attached has no
    area: however the scissor and [flipY] are set, activation gives it
    the viewport (0, 0, 0, 0), and with a scissor the scissor box
    (0, 0, 0, 0). *)
Theorem use_detached_texture_target (self : TextureDrawTarget) (ctx : Context) :
  _texture self = None →
  let s := gl (snd (use self ctx)) in
  WebGL.viewportBox s = (0, 0, 0, 0) ∧
  (WebGL.scissorTest s = true → WebGL.scissorBox s = (0, 0, 0, 0)).
Proof.
  intros Hnone s. pose proof (use_drawState self ctx) as Hd.
  assert (Hsize : size self ctx = Vec2.new0) by (cbn; unfold texture; rewrite Hnone; reflexivity).
  unfold maskBox in Hd. rewrite Hsize in Hd.
  unfold drawState in Hd. fold s in Hd. cbn [fields] in Hd.
  destruct (scissor (texture_fields self)) as [sc|];
    injection Hd as _ Ht Hb Hv; (split; [exact Hv|]); intros Hon.
  - rewrite Hb, intersection_empty_r; [reflexivity|].
    left. apply Qcle_refl.
  - rewrite Ht in Hon. discriminate Hon.
Qed.

Lemma use_detached_texture_target_witness :
  let self := mkTexture (mkFields (Some example_clip) true Transform.identity) 1%positive None in
  let s := gl (snd (use self example_context)) in
  WebGL.viewportBox s = (0, 0, 0, 0) ∧
  (WebGL.scissorTest s = true → WebGL.scissorBox s = (0, 0, 0, 0)).
Proof.
  exact (use_detached_texture_target
           (mkTexture (mkFields (Some example_clip) true Transform.identity) 1%positive None)
           example_context eq_refl).
Defined.

(** ** Integer rectangles: the mask and the read-back agree *)

Section IntegerLiterals.

Lemma lit_this (z : Z) : this (lit z) = inject_Z z.
Proof. unfold lit. cbn. apply inject_Z_Qred. Qed.

Lemma lit_sub (a b : Z) : lit a - lit b = lit (a - b).
Proof.
  apply Qc_is_canon. unfold Qcminus, Qcplus, Qcopp.
  cbn [this Q2Qc]. rewrite !Qred_correct. rewrite !lit_this.
  unfold Z.sub. rewrite inject_Z_plus, inject_Z_opp. reflexivity.
Qed.

Lemma lit_lt (a b : Z) : (a < b)%Z → lit a < lit b.
Proof. intros H. unfold Qclt. rewrite !lit_this, <- Zlt_Qlt. exact H. Qed.

Lemma lit_le (a b : Z) : (a ≤ b)%Z → lit a ≤ lit b.
Proof. intros H. unfold Qcle. rewrite !lit_this, <- Zle_Qle. exact H. Qed.

Lemma Math_floor_lit (z : Z) : Math_floor (lit z) = lit z.
Proof. unfold Math_floor. rewrite lit_this, Qfloor_Z. reflexivity. Qed.

Lemma Math_ceil_lit (z : Z) : Math_ceil (lit z) = lit z.
Proof. unfold Math_ceil. rewrite lit_this, Qceiling_Z. reflexivity. Qed.

(** Rounding leaves a rectangle with integer corners as it is. *)
Lemma intBounding_intRect (l t r b : Z) :
  Rect.intBounding (intRect l t r b) = intRect l t r b.
Proof.
  unfold Rect.intBounding, intRect, Vec2.floor, Vec2.ceil. cbn.
  rewrite !Math_floor_lit, !Math_ceil_lit. reflexivity.
Qed.

(** A rectangle with an area that lies in the target is its own
    intersection with the target. *)
Lemma intersection_intRect_inside (l t r b w h : Z) :
  (0 ≤ l < r ∧ r ≤ w)%Z → (0 ≤ t < b ∧ b ≤ h)%Z →
  Rect.intersection (intRect l t r b)
                    (Rect.new (Vec2.new1 0) (Vec2.new (lit w) (lit h))) =
    Some (intRect l t r b).
Proof.
  intros ((Hl & Hlr) & Hr) ((Ht & Htb) & Hb).
  unfold Rect.intersection, intRect, Rect.left, Rect.right, Rect.top, Rect.bottom.
  cbn [Rect.topLeft Rect.bottomRight Vec2.x Vec2.y Vec2.new1].
  rewrite (Math_max_absorb (lit l) 0) by (apply (lit_le 0 l Hl)).
  rewrite (Math_max_absorb (lit t) 0) by (apply (lit_le 0 t Ht)).
  rewrite (Math_min_absorb (lit r) (lit w)) by (apply lit_le, Hr).
  rewrite (Math_min_absorb (lit b) (lit h)) by (apply lit_le, Hb).
  destruct (decide _) as [_|Hn]; [reflexivity|].
  exfalso. apply Hn. split; apply lit_lt; assumption.
Qed.

End IntegerLiterals.

(** X8.  For a rectangle with integer corners that has an area and lies
    in a target of integer size, nothing is rounded or cut off: the
    scissor box of the activation is the rectangle itself, moved to row
    [height - bottom] when [flipY] is set, and [readPixels] of the same
    rectangle reads exactly the box the scissor lets through. *)
Theorem scissor_matches_readPixels (self : DrawTarget.t) (ctx : Context)
    (l t r b w h : Z) (data : WebGL.ArrayBufferView) (opts : ReadPixelsOpts) :
  size self ctx = Vec2.new (lit w) (lit h) →
  scissor (fields self) = Some (intRect l t r b) →
  (0 ≤ l < r ∧ r ≤ w)%Z →
  (0 ≤ t < b ∧ b ≤ h)%Z →
  let y := if flipY (fields self) then (h - b)%Z else t in
  WebGL.scissorBox (gl (snd (use self ctx))) =
    (lit l, lit y, lit (r - l), lit (b - t)) ∧
  last (WebGL.calls (gl (snd (readPixels self (intRect l t r b) data opts ctx)))) =
    Some (WebGL.readPixels (lit l) (lit y) (lit (r - l)) (lit (b - t))
            (or_else (format opts) (pixelFormat self))
            (or_else (type opts) (pixelType self)) data).
Proof.
  intros Hsize Hsc Hx Hy y.
  set (y2 := if flipY (fields self) then (h - t)%Z else b).
  assert (Hflip : _flipRect self ctx (intRect l t r b) = intRect l y r y2).
  { unfold _flipRect, y, y2. rewrite Hsize. destruct (flipY (fields self)); [|reflexivity].
    unfold intRect, Rect.left, Rect.right, Rect.top, Rect.bottom, Vec2.height.
    cbn [Rect.topLeft Rect.bottomRight Vec2.x Vec2.y]. rewrite !lit_sub. reflexivity. }
  assert (Hy' : (0 ≤ y < y2 ∧ y2 ≤ h)%Z)
    by (unfold y, y2; destruct (flipY (fields self)); lia).
  assert (Hh : (y2 - y = b - t)%Z)
    by (unfold y, y2; destruct (flipY (fields self)); lia).
  assert (Hw' : Rect.width (intRect l y r y2) = lit (r - l))
    by (unfold Rect.width, intRect; cbn; apply lit_sub).
  assert (Hh' : Rect.height (intRect l y r y2) = lit (b - t))
    by (unfold Rect.height, intRect; cbn; rewrite lit_sub, Hh; reflexivity).
  split.
  - destruct (use_scissor_registers self ctx _ Hsc) as [_ Hbox]. cbv zeta in Hbox.
    rewrite Hbox, Hflip, intBounding_intRect, Hsize.
    rewrite (intersection_intRect_inside l y r y2 w h Hx Hy'), Hw', Hh'. reflexivity.
  - unfold readPixels. rewrite GL_bind_snd.
    rewrite (flipRect_canvas self ctx _ _ (use_canvas self ctx)), Hflip, Hw', Hh'.
    unfold call, WebGL.exec, WebGL.log. cbn. apply last_snoc.
Qed.

Lemma scissor_matches_readPixels_witness :
  let self : DrawTarget.t := example_inner in
  let opts := mkOpts None None in
  WebGL.scissorBox (gl (snd (use self example_context))) =
    (lit 10, lit (50 - 20), lit (40 - 10), lit (20 - 5)) ∧
  last (WebGL.calls
          (gl (snd (readPixels self (intRect 10 5 40 20) 1%positive opts example_context)))) =
    Some (WebGL.readPixels (lit 10) (lit (50 - 20)) (lit (40 - 10)) (lit (20 - 5))
            (or_else (format opts) (pixelFormat self))
            (or_else (type opts) (pixelType self)) 1%positive).
Proof.
  apply (scissor_matches_readPixels example_inner example_context
           10 5 40 20 100 50 1%positive (mkOpts None None));
    [reflexivity | reflexivity | lia | lia].
Defined.

(** ** The life of a texture draw target *)

(** X9.  Constructing a texture draw target creates exactly one
    framebuffer, one that was not live before, and attaches the texture
    to it if one is given; without a texture the create call is the only
    call.  The new target has no scissor, [flipY] unset and the identity
    as transform, and reports the texture it was given. *)
Theorem new_TextureDrawTarget_effects (tex : option Texture.t) (ctx : Context) :
  let self := fst (new_TextureDrawTarget tex ctx) in
  let s := gl (snd (new_TextureDrawTarget tex ctx)) in
  (framebuffer self ∉ WebGL.framebuffers (gl ctx)) ∧
  framebuffer self ∈ WebGL.framebuffers s ∧
  issued (new_TextureDrawTarget tex) ctx =
    WebGL.createFramebuffer (framebuffer self)
    :: match tex with
       | Some t => [WebGL.bindFramebuffer (Some (framebuffer self));
                    WebGL.framebufferTexture2D (Texture.texture t)]
       | None => []
       end ∧
  match tex with
  | Some t => WebGL.colorAttachment0 s !! framebuffer self = Some (Texture.texture t)
  | None => WebGL.colorAttachment0 s = WebGL.colorAttachment0 (gl ctx)
  end ∧
  texture_fields self = defaults ∧ texture self = tex.
Proof.
  intros self s.
  assert (Hfb : framebuffer self = fresh (WebGL.framebuffers (gl ctx)))
    by (destruct tex; reflexivity).
  split; [rewrite Hfb; apply is_fresh|].
  split; [destruct tex; cbn; apply elem_of_union_l, elem_of_singleton; reflexivity|].
  split; [|split; [|split]].
  - apply issued_app. subst self s.
    destruct tex; unfold new_TextureDrawTarget, gl_createFramebuffer; run_gl;
      rewrite <- ?app_assoc; reflexivity.
  - subst self s.
    destruct tex; unfold new_TextureDrawTarget, gl_createFramebuffer; run_gl;
      [apply lookup_insert_eq|reflexivity].
  - destruct tex; reflexivity.
  - destruct tex; reflexivity.
Qed.

Lemma new_TextureDrawTarget_issued (tex : option Texture.t) (ctx : Context) :
  issued (new_TextureDrawTarget tex) ctx =
    WebGL.createFramebuffer (fresh (WebGL.framebuffers (gl ctx)))
    :: match tex with
       | Some t => [WebGL.bindFramebuffer (Some (fresh (WebGL.framebuffers (gl ctx))));
                    WebGL.framebufferTexture2D (Texture.texture t)]
       | None => []
       end.
Proof.
  apply issued_app.
  destruct tex; unfold new_TextureDrawTarget, gl_createFramebuffer; run_gl;
    rewrite <- ?app_assoc; reflexivity.
Qed.

(** X10.  Constructing a texture draw target and disposing of it leaves
    the device with the framebuffers it had, nothing attached to the
    framebuffer that came and went, and every texture still there: the
    calls are one create, the attachment if a texture was given, and one
    delete of the framebuffer created. *)
Theorem new_dispose_round_trip (tex : option Texture.t) (ctx : Context) :
  let self := fst (new_TextureDrawTarget tex ctx) in
  let s := gl (snd ((new_TextureDrawTarget tex ≫= λ x, dispose (Texture x)) ctx)) in
  WebGL.framebuffers s = WebGL.framebuffers (gl ctx) ∧
  WebGL.textures s = WebGL.textures (gl ctx) ∧
  WebGL.colorAttachment0 s !! framebuffer self = None ∧
  issued (new_TextureDrawTarget tex ≫= λ x, dispose (Texture x)) ctx =
    issued (new_TextureDrawTarget tex) ctx ++ [WebGL.deleteFramebuffer (framebuffer self)].
Proof.
  intros self s.
  assert (Hfb : framebuffer self = fresh (WebGL.framebuffers (gl ctx)))
    by (destruct tex; reflexivity).
  pose proof (is_fresh (WebGL.framebuffers (gl ctx))) as Hfresh.
  assert (Hs : WebGL.framebuffers s =
               ({[fresh (WebGL.framebuffers (gl ctx))]} ∪ WebGL.framebuffers (gl ctx))
                 ∖ {[fresh (WebGL.framebuffers (gl ctx))]})
    by (destruct tex; reflexivity).
  split.
  { rewrite Hs. apply set_eq. intros x.
    rewrite elem_of_difference, elem_of_union, elem_of_singleton.
    split.
    - intros [[Hx|Hx] Hne]; [contradiction|exact Hx].
    - intros Hx. split; [right; exact Hx|]. intros ->. exact (Hfresh Hx). }
  split; [destruct tex; reflexivity|].
  split.
  { rewrite Hfb. subst self s.
    destruct tex; unfold new_TextureDrawTarget, gl_createFramebuffer; run_gl;
      apply lookup_delete_eq. }
  apply issued_app. rewrite new_TextureDrawTarget_issued. subst self s.
  destruct tex; unfold new_TextureDrawTarget, gl_createFramebuffer; run_gl;
    rewrite <- ?app_assoc; reflexivity.
Qed.

(** X11.  The device keeps the last texture that was attached: after a
    texture [A] and then a value [v] have been assigned, the target
    reports [v], and its framebuffer carries the storage of [v] if [v] is
    a texture and still that of [A] if [v] is [undefined], in which case
    the target reports size (0, 0) although [A] is attached. *)
Theorem set_texture_twice (self : TextureDrawTarget) (A : Texture.t)
    (v : option Texture.t) (ctx : Context) :
  let m := set_texture self (Some A) ≫= λ x, set_texture x v in
  let self' := fst (m ctx) in
  let s := gl (snd (m ctx)) in
  texture self' = v ∧
  framebuffer self' = framebuffer self ∧
  WebGL.colorAttachment0 s !! framebuffer self =
    Some (Texture.texture (default A v)) ∧
  size self' (snd (m ctx)) =
    match v with
    | Some B => Texture.size B
    | None => Vec2.new 0 0
    end.
Proof.
  intros m self' s. subst m self' s. destruct v as [B|]; run_gl;
    repeat split; apply lookup_insert_eq.
Qed.

(** ** The matrix of [draw] on the whole target *)

Lemma fields_set_flipY (self : DrawTarget.t) (b : bool) :
  flipY (fields (set_flipY self b)) = b ∧
  transform (fields (set_flipY self b)) = transform (fields self) ∧
  scissor (fields (set_flipY self b)) = scissor (fields self).
Proof. destruct self; repeat split. Qed.

Lemma size_set_flipY (self : DrawTarget.t) (b : bool) (ctx : Context) :
  size (set_flipY self b) ctx = size self ctx.
Proof. destruct self; reflexivity. Qed.

(** With the identity as global transform, the image of a pixel. *)
Lemma effectiveTransform_identity_image (self : DrawTarget.t) (ctx : Context)
    (W H x y : number) :
  size self ctx = Vec2.new W H → W ≠ 0 → H ≠ 0 →
  transform (fields self) = Transform.identity →
  ∃ eff : Transform.t,
    effectiveTransform self ctx = Some eff ∧
    Transform.apply eff (Vec2.new x y) =
      flipStep self (Vec2.new (2 / W * x + -1) (2 / H * y + -1)).
Proof.
  intros Hsize HW HH Hid.
  assert (HW' : Vec2.width (size self ctx) ≠ 0) by (rewrite Hsize; exact HW).
  assert (HH' : Vec2.height (size self ctx) ≠ 0) by (rewrite Hsize; exact HH).
  pose proof (effectiveTransform_defined self ctx HW' HH') as Heff.
  eexists. split; [exact Heff|].
  rewrite (effectiveTransform_chain self ctx HW' HH' _ _ Heff).
  rewrite Hid, apply_identity. cbn [mbind option_bind].
  unfold normScale, normTranslate. rewrite Hsize, apply_scale. cbn [mbind option_bind].
  rewrite apply_translate. reflexivity.
Qed.

(** X12.  On a target with an area, [flipY] changes the matrix of [draw]
    in one way only: the image of every point has its second coordinate
    negated, the first is the same. *)
Theorem draw_flipY_negates_y (self : DrawTarget.t) (ctx : Context) (p : Vec2.t) :
  Vec2.width (size self ctx) ≠ 0 →
  Vec2.height (size self ctx) ≠ 0 →
  (effectiveTransform (set_flipY self true) ctx ≫= λ m, Transform.apply m p) =
  (effectiveTransform (set_flipY self false) ctx ≫= λ m, Transform.apply m p)
    ≫= λ q, Some (Vec2.new (Vec2.x q) (- Vec2.y q)).
Proof.
  intros HW HH.
  assert (Hd : ∀ b, ∃ eff,
            effectiveTransform (set_flipY self b) ctx = Some eff ∧
            Transform.apply eff p =
              ((Transform.apply (transform (fields self)) p
                  ≫= Transform.apply (normScale self ctx))
                 ≫= Transform.apply normTranslate)
                ≫= λ q, if b then Transform.apply flipScale q else Some q).
  { intros b.
    assert (HWb : Vec2.width (size (set_flipY self b) ctx) ≠ 0)
      by (rewrite size_set_flipY; exact HW).
    assert (HHb : Vec2.height (size (set_flipY self b) ctx) ≠ 0)
      by (rewrite size_set_flipY; exact HH).
    pose proof (effectiveTransform_defined _ ctx HWb HHb) as Heff.
    eexists. split; [exact Heff|].
    rewrite (effectiveTransform_chain _ ctx HWb HHb _ p Heff).
    destruct (fields_set_flipY self b) as (Hf & Ht & _).
    unfold flipStep, normScale. rewrite Hf, Ht, size_set_flipY. reflexivity. }
  destruct (Hd true) as (et & Het & Hat). destruct (Hd false) as (ef & Hef & Haf).
  rewrite Het, Hef. cbn [mbind option_bind]. rewrite Hat, Haf.
  destruct ((Transform.apply (transform (fields self)) p
               ≫= Transform.apply (normScale self ctx))
              ≫= Transform.apply normTranslate) as [q|]; [|reflexivity].
  cbn [mbind option_bind]. unfold flipScale. rewrite apply_scale. cbn [Vec2.x Vec2.y].
  f_equal. apply Vec2_eq; ring.
Qed.

Lemma draw_flipY_negates_y_witness :
  let self : DrawTarget.t := example_scaled in
  let p := Vec2.new (lit 50) (lit 25) in
  (effectiveTransform (set_flipY self true) example_context
     ≫= λ m, Transform.apply m p) =
  (effectiveTransform (set_flipY self false) example_context
     ≫= λ m, Transform.apply m p)
    ≫= λ q, Some (Vec2.new (Vec2.x q) (- Vec2.y q)).
Proof.
  apply (draw_flipY_negates_y example_scaled example_context
           (Vec2.new (lit 50) (lit 25))); discriminate.
Defined.

(** X13.  With the identity as global transform and a size (W, H) with
    W and H positive, the matrix of [draw] maps every point of the
    target rectangle, 0 <= x <= W and 0 <= y <= H, into the square
    [-1, 1] x [-1, 1], with or without [flipY]. *)
Theorem draw_maps_target_into_square (self : DrawTarget.t) (ctx : Context)
    (W H x y : number) :
  size self ctx = Vec2.new W H →
  0 < W → 0 < H →
  transform (fields self) = Transform.identity →
  0 ≤ x ≤ W → 0 ≤ y ≤ H →
  ∃ (eff : Transform.t) (u v : number),
    effectiveTransform self ctx = Some eff ∧
    Transform.apply eff (Vec2.new x y) = Some (Vec2.new u v) ∧
    -1 ≤ u ≤ 1 ∧ -1 ≤ v ≤ 1.
Proof.
  intros Hsize HW HH Hid [Hx0 Hx1] [Hy0 Hy1].
  assert (HW0 : W ≠ 0) by (intros ->; exact (Qclt_not_eq _ _ HW eq_refl)).
  assert (HH0 : H ≠ 0) by (intros ->; exact (Qclt_not_eq _ _ HH eq_refl)).
  assert (Hbound : ∀ L z : number, 0 < L → 0 ≤ z → z ≤ L →
                   -1 ≤ 2 / L * z + -1 ∧ 2 / L * z + -1 ≤ 1).
  { intros L z HL Hz0 Hz1.
    assert (HL0 : L ≠ 0) by (intros ->; exact (Qclt_not_eq _ _ HL eq_refl)).
    assert (Hk : 0 ≤ 2 / L).
    { apply Qclt_le_weak. unfold Qcdiv. apply Qcmult_pos_pos; [reflexivity|].
      apply Qcinv_pos, HL. }
    assert (E : 2 / L * L + -1 = 1) by (field; exact HL0).
    split.
    - apply Qcle_trans with (0 + -1); [rewrite Qcplus_0_l; apply Qcle_refl|].
      apply Qcplus_le_mono_r. apply Qcmult_nonneg_nonneg; assumption.
    - apply Qcle_trans with (2 / L * L + -1); [|rewrite E; apply Qcle_refl].
      apply Qcplus_le_mono_r. apply Qcmult_le_mono_nonneg_l; assumption. }
  destruct (Hbound W x HW Hx0 Hx1) as [Hu0 Hu1].
  destruct (Hbound H y HH Hy0 Hy1) as [Hv0 Hv1].
  destruct (effectiveTransform_identity_image self ctx W H x y Hsize HW0 HH0 Hid)
    as (eff & Heff & Himg).
  exists eff. unfold flipStep, flipScale in Himg.
  destruct (flipY (fields self)).
  - rewrite apply_scale in Himg. cbn [Vec2.x Vec2.y] in Himg.
    eexists _, _. split; [exact Heff|]. split; [exact Himg|].
    split; split.
    + replace (1 * (2 / W * x + -1)) with (2 / W * x + -1) by ring. exact Hu0.
    + replace (1 * (2 / W * x + -1)) with (2 / W * x + -1) by ring. exact Hu1.
    + replace (-1 * (2 / H * y + -1)) with (- (2 / H * y + -1)) by ring.
      apply Qcopp_le_compat, Hv1.
    + replace (-1 * (2 / H * y + -1)) with (- (2 / H * y + -1)) by ring.
      replace (1 : number) with (- -1) by ring.
      apply Qcopp_le_compat, Hv0.
  - eexists _, _. split; [exact Heff|]. split; [exact Himg|]. auto.
Qed.

Lemma draw_maps_target_into_square_witness :
  let self : DrawTarget.t := example_canvas true in
  ∃ (eff : Transform.t) (u v : number),
    effectiveTransform self example_context = Some eff ∧
    Transform.apply eff (Vec2.new (lit 30) (lit 20)) = Some (Vec2.new u v) ∧
    -1 ≤ u ≤ 1 ∧ -1 ≤ v ≤ 1.
Proof.
  apply (draw_maps_target_into_square (example_canvas true) example_context
           (lit 100) (lit 50) (lit 30) (lit 20));
    [reflexivity | reflexivity | reflexivity | reflexivity
    | split; discriminate | split; discriminate].
Defined.

(** ** The flip correction and the rounding, as maps of regions *)

(** The flip correction moves rows only. *)
Lemma flipRect_left_right (self : DrawTarget.t) (ctx : Context) (R : Rect.t) :
  Rect.left (_flipRect self ctx R) = Rect.left R ∧
  Rect.right (_flipRect self ctx R) = Rect.right R.
Proof. unfold _flipRect. destruct (flipY (fields self)); split; reflexivity. Qed.

(** X14.  The flip correction maps the target onto itself: the whole
    target rectangle [(0, 0) .. size] is its own image, and a rectangle
    whose rows lie between 0 and the height of the target has an image
    whose rows do, with the same left and right. *)
Theorem flipRect_keeps_inside (self : DrawTarget.t) (ctx : Context) (R : Rect.t) :
  _flipRect self ctx (Rect.new (Vec2.new 0 0) (Vec2.new (Vec2.x (size self ctx))
                                                    (Vec2.y (size self ctx)))) =
    Rect.new (Vec2.new 0 0) (Vec2.new (Vec2.x (size self ctx)) (Vec2.y (size self ctx))) ∧
  Rect.left (_flipRect self ctx R) = Rect.left R ∧
  Rect.right (_flipRect self ctx R) = Rect.right R ∧
  (0 ≤ Rect.top R ∧ Rect.top R ≤ Rect.bottom R ∧
   Rect.bottom R ≤ Vec2.height (size self ctx) →
   0 ≤ Rect.top (_flipRect self ctx R) ∧
   Rect.top (_flipRect self ctx R) ≤ Rect.bottom (_flipRect self ctx R) ∧
   Rect.bottom (_flipRect self ctx R) ≤ Vec2.height (size self ctx)).
Proof.
  unfold _flipRect. destruct (flipY (fields self)); [|repeat split; tauto].
  unfold Rect.left, Rect.right, Rect.top, Rect.bottom, Vec2.height.
  cbn [Rect.topLeft Rect.bottomRight Vec2.x Vec2.y].
  set (H := Vec2.y (size self ctx)).
  split; [f_equal; apply Vec2_eq; ring|].
  split; [reflexivity|]. split; [reflexivity|].
  intros (Ht & Htb & Hb). split; [|split].
  - apply Qcle_minus_iff in Hb. exact Hb.
  - apply Qcplus_le_mono_l. apply Qcopp_le_compat, Htb.
  - apply Qcle_minus_iff. replace (H + - (H - Vec2.y (Rect.topLeft R)))
      with (Vec2.y (Rect.topLeft R)) by ring. exact Ht.
Qed.

Section Rounding.

Lemma Math_floor_le (a : number) : Math_floor a ≤ a.
Proof. unfold Math_floor, Qcle. rewrite lit_this. apply Qfloor_le. Qed.

Lemma Math_ceil_ge (a : number) : a ≤ Math_ceil a.
Proof. unfold Math_ceil, Qcle. rewrite lit_this. apply Qle_ceiling. Qed.

Lemma Math_max_lt (a b c : number) : a < c → b < c → Math_max a b < c.
Proof. intros Ha Hb. unfold Math_max. destruct (decide (a < b)); assumption. Qed.

Lemma Math_min_gt (a b c : number) : c < a → c < b → c < Math_min a b.
Proof. intros Ha Hb. unfold Math_min. destruct (decide (b < a)); assumption. Qed.

End Rounding.

(** X15.  The mask never cuts into the region asked for: a point that
    lies strictly inside the flip-corrected scissor rectangle and
    strictly inside the target lies strictly inside the scissor box that
    the activation sets (the rectangle is rounded outwards before it is
    cut to the target). *)
Theorem use_mask_covers_scissor (self : DrawTarget.t) (ctx : Context)
    (sc : Rect.t) (px py : number) :
  scissor (fields self) = Some sc →
  Rect.left sc < px < Rect.right sc →
  Rect.top (_flipRect self ctx sc) < py < Rect.bottom (_flipRect self ctx sc) →
  0 < px < Vec2.x (size self ctx) →
  0 < py < Vec2.y (size self ctx) →
  ∃ x y w h : number,
    WebGL.scissorBox (gl (snd (use self ctx))) = (x, y, w, h) ∧
    x < px < x + w ∧ y < py < y + h.
Proof.
  intros Hsc [Hl Hr] [Ht Hb] [Hx0 Hx1] [Hy0 Hy1].
  destruct (use_scissor_registers self ctx sc Hsc) as [_ Hbox]. cbv zeta in Hbox.
  destruct (flipRect_left_right self ctx sc) as (Hfl & Hfr).
  rewrite <- Hfl in Hl. rewrite <- Hfr in Hr.
  set (R := _flipRect self ctx sc) in *.
  unfold Rect.intersection, Rect.intBounding in Hbox.
  unfold Rect.left, Rect.right, Rect.top, Rect.bottom in Hbox, Hl, Hr, Ht, Hb.
  cbn [Rect.topLeft Rect.bottomRight Vec2.x Vec2.y Vec2.floor Vec2.ceil Vec2.new1] in Hbox.
  set (L := Math_max (Math_floor (Vec2.x (Rect.topLeft R))) 0) in Hbox.
  set (T := Math_max (Math_floor (Vec2.y (Rect.topLeft R))) 0) in Hbox.
  set (Rr := Math_min (Math_ceil (Vec2.x (Rect.bottomRight R))) (Vec2.x (size self ctx))) in Hbox.
  set (Bt := Math_min (Math_ceil (Vec2.y (Rect.bottomRight R))) (Vec2.y (size self ctx))) in Hbox.
  assert (HL : L < px).
  { apply Math_max_lt; [|exact Hx0].
    eapply Qcle_lt_trans; [apply Math_floor_le|exact Hl]. }
  assert (HT : T < py).
  { apply Math_max_lt; [|exact Hy0].
    eapply Qcle_lt_trans; [apply Math_floor_le|exact Ht]. }
  assert (HR : px < Rr).
  { apply Math_min_gt; [|exact Hx1].
    eapply Qclt_le_trans; [exact Hr|apply Math_ceil_ge]. }
  assert (HB : py < Bt).
  { apply Math_min_gt; [|exact Hy1].
    eapply Qclt_le_trans; [exact Hb|apply Math_ceil_ge]. }
  destruct (decide (L < Rr ∧ T < Bt)) as [_|Hn].
  - exists L, T, (Rr - L), (Bt - T). split; [exact Hbox|].
    unfold Rect.width, Rect.height, Rect.left, Rect.right, Rect.top, Rect.bottom in *.
    replace (L + (Rr - L)) with Rr by ring. replace (T + (Bt - T)) with Bt by ring.
    auto.
  - exfalso. apply Hn. split; eapply Qclt_trans; eassumption.
Qed.

Lemma use_mask_covers_scissor_witness :
  let self : DrawTarget.t := example_canvas true in
  ∃ x y w h : number,
    WebGL.scissorBox (gl (snd (use self example_context))) = (x, y, w, h) ∧
    x < lit 95 < x + w ∧ y < lit 45 < y + h.
Proof.
  apply (use_mask_covers_scissor (example_canvas true) example_context example_clip
           (lit 95) (lit 45));
    [reflexivity | split; reflexivity | split; reflexivity
    | split; reflexivity | split; reflexivity].
Defined.

(** * Properties that depend on rounding *)

(** ** Facts on [SpecFloat]: integers and exact results *)

Module SpecFloatFacts.

Import Double.
Local Open Scope Z_scope.

(** [SpecFloat]'s iteration is [Pos.iter]. *)
Lemma iter_pos_iter {A} (f : A -> A) (p : positive) (x : A) :
  SpecFloat.iter_pos f p x = @Pos.iter A f x p.
Proof.
  revert x. induction p as [p IH|p IH|]; intros x; cbn.
  - rewrite !IH. rewrite <- !Pos.iter_swap. reflexivity.
  - rewrite !IH. reflexivity.
  - reflexivity.
Qed.

(** A shift to the left by [k] adds [k] binary digits. *)
Lemma digits2_pos_iter_xO (m : positive) (k : positive) :
  Zpos (digits2_pos (@Pos.iter positive xO m k)) = Zpos (digits2_pos m) + Zpos k.
Proof.
  induction k using Pos.peano_ind.
  - cbn. lia.
  - rewrite Pos.iter_succ. cbn [digits2_pos]. lia.
Qed.

(** Shifting back drops the [k] zero digits and loses nothing. *)
Lemma shr_1_iter_xO (m : positive) (k : positive) :
  @Pos.iter shr_record shr_1 (Build_shr_record (Zpos (@Pos.iter positive xO m k)) false false) k =
    Build_shr_record (Zpos m) false false.
Proof.
  induction k using Pos.peano_ind.
  - reflexivity.
  - rewrite Pos.iter_succ_r, (Pos.iter_succ k _ xO m). cbn [shr_1 orb]. exact IHk.
Qed.

(** Rounding a mantissa that is a binary64 mantissa followed by [k]
    zero digits returns that mantissa: the result is exact. *)
Lemma binary_round_aux_exact (s : bool) (m : positive) (e : Z) (k : N) :
  bounded prec emax m e = true ->
  binary_round_aux prec emax s (Zpos (Pos.shiftl m k)) (e - Z.of_N k) loc_Exact =
    S754_finite s m e.
Proof.
  intros Hb. unfold bounded in Hb. apply andb_prop in Hb as [Hc He].
  unfold canonical_mantissa in Hc. apply Z.eqb_eq in Hc. apply Z.leb_le in He.
  assert (Hstay : shr_fexp prec emax (Zpos m) e loc_Exact =
                  (Build_shr_record (Zpos m) false false, e)).
  { unfold shr_fexp. cbn [Zdigits2]. rewrite Hc, Z.sub_diag. reflexivity. }
  assert (Hfirst : shr_fexp prec emax (Zpos (Pos.shiftl m k)) (e - Z.of_N k) loc_Exact =
                   (Build_shr_record (Zpos m) false false, e)).
  { destruct k as [|k]; unfold Pos.shiftl; cbn [Z.of_N].
    - rewrite Z.sub_0_r. exact Hstay.
    - unfold shr_fexp. cbn [Zdigits2]. rewrite digits2_pos_iter_xO.
      replace (Zpos (digits2_pos m) + Zpos k + (e - Zpos k)) with (Zpos (digits2_pos m) + e) by lia.
      rewrite Hc. replace (e - (e - Zpos k)) with (Zpos k) by lia.
      cbn [shr shr_record_of_loc]. rewrite iter_pos_iter.
      rewrite shr_1_iter_xO. f_equal. lia. }
  unfold binary_round_aux. rewrite Hfirst. cbn [shr_m loc_of_shr_record round_nearest_even].
  rewrite Hstay. cbn [shr_m].
  destruct (e <=? emax - prec) eqn:E; [reflexivity|]. apply Z.leb_gt in E. lia.
Qed.

(** The value of a shifted mantissa. *)
Lemma Zpos_iter_xO (n k : positive) : Zpos (@Pos.iter positive xO n k) = Zpos n * 2 ^ Zpos k.
Proof.
  induction k using Pos.peano_ind.
  - cbn. lia.
  - rewrite Pos.iter_succ, Pos2Z.inj_xO, IHk, Pos2Z.inj_succ, Z.pow_succ_r by lia. lia.
Qed.

Lemma Zpos_shiftl (n : positive) (k : N) : Zpos (Pos.shiftl n k) = Zpos n * 2 ^ Z.of_N k.
Proof. destruct k as [|k]; unfold Pos.shiftl; cbn [Z.of_N]; [lia|apply Zpos_iter_xO]. Qed.

Lemma digits2_pos_shiftl (m : positive) (k : N) :
  Zpos (digits2_pos (Pos.shiftl m k)) = Zpos (digits2_pos m) + Z.of_N k.
Proof. destruct k as [|k]; unfold Pos.shiftl; cbn [Z.of_N]; [lia|apply digits2_pos_iter_xO]. Qed.

(** A positive number of [d] binary digits lies in [2 ^ (d - 1), 2 ^ d). *)
Lemma digits2_pos_bounds (p : positive) :
  2 ^ (Zpos (digits2_pos p) - 1) <= Zpos p < 2 ^ Zpos (digits2_pos p).
Proof.
  induction p as [p IH|p IH|]; cbn [digits2_pos].
  - rewrite Pos2Z.inj_succ. change (Zpos p~1) with (2 * Zpos p + 1).
    replace (Z.succ (Zpos (digits2_pos p)) - 1) with (Z.succ (Zpos (digits2_pos p) - 1)) by lia.
    rewrite !Z.pow_succ_r by lia.
    destruct IH as [IH1 IH2]. revert IH1 IH2.
    generalize (2 ^ (Zpos (digits2_pos p) - 1)) (2 ^ Zpos (digits2_pos p)). intros; lia.
  - rewrite Pos2Z.inj_succ. change (Zpos p~0) with (2 * Zpos p).
    replace (Z.succ (Zpos (digits2_pos p)) - 1) with (Z.succ (Zpos (digits2_pos p) - 1)) by lia.
    rewrite !Z.pow_succ_r by lia.
    destruct IH as [IH1 IH2]. revert IH1 IH2.
    generalize (2 ^ (Zpos (digits2_pos p) - 1)) (2 ^ Zpos (digits2_pos p)). intros; lia.
  - cbn. lia.
Qed.

Lemma digits2_pos_le (a b : positive) :
  (b <= a)%positive -> Zpos (digits2_pos b) <= Zpos (digits2_pos a).
Proof.
  intros H. destruct (digits2_pos_bounds a) as [_ Ha]. destruct (digits2_pos_bounds b) as [Hb _].
  assert (H0 : 2 ^ (Zpos (digits2_pos b) - 1) < 2 ^ Zpos (digits2_pos a)) by lia.
  apply Z.pow_lt_mono_r_iff in H0; lia.
Qed.

Lemma digits2_pos_53 (a : positive) : Zpos a < 2 ^ 53 -> Zpos (digits2_pos a) <= 53.
Proof.
  intros H. destruct (digits2_pos_bounds a) as [Ha _].
  assert (H0 : 2 ^ (Zpos (digits2_pos a) - 1) < 2 ^ 53) by lia.
  apply Z.pow_lt_mono_r_iff in H0; lia.
Qed.

(** The exponent of a number of at most 53 digits: no subnormal range
    is met by integers. *)
Lemma fexp_digits (d : positive) : fexp prec emax (Zpos d) = Zpos d - 53.
Proof. unfold fexp, SpecFloat.emin, prec, emax. lia. Qed.

(** The binary64 form of a positive integer below [2 ^ 53]. *)
Lemma Zpos_nfm (n : positive) :
  Zpos n < 2 ^ 53 -> Zpos (nfm n) = Zpos n * 2 ^ (53 - Zpos (digits2_pos n)).
Proof.
  intros H. pose proof (digits2_pos_53 n H). unfold nfm.
  rewrite Zpos_shiftl, Z2N.id by lia. reflexivity.
Qed.

Lemma nf_bounded (n : positive) :
  Zpos n < 2 ^ 53 -> bounded prec emax (nfm n) (nfe n) = true.
Proof.
  intros H. pose proof (digits2_pos_53 n H) as Hd.
  unfold bounded, canonical_mantissa, nfm, nfe.
  rewrite digits2_pos_shiftl, Z2N.id by lia.
  replace (Zpos (digits2_pos n) + (53 - Zpos (digits2_pos n)) + (Zpos (digits2_pos n) - 53))
    with (Zpos (digits2_pos n)) by lia.
  rewrite fexp_digits, Z.eqb_refl. cbn [andb]. apply Z.leb_le. unfold emax, prec. lia.
Qed.

(** An integer below [2 ^ 53], however many zero digits follow it,
    rounds to itself. *)
Lemma binary_round_int (s : bool) (n : positive) (k : N) :
  Zpos n < 2 ^ 53 ->
  binary_round prec emax s (Pos.shiftl n k) (- Z.of_N k) = S754_finite s (nfm n) (nfe n).
Proof.
  intros H. pose proof (digits2_pos_53 n H) as Hd. pose proof (nf_bounded n H) as Hb.
  unfold binary_round. rewrite digits2_pos_shiftl.
  replace (Zpos (digits2_pos n) + Z.of_N k + - Z.of_N k) with (Zpos (digits2_pos n)) by lia.
  rewrite fexp_digits. unfold shl_align.
  destruct (Zpos (digits2_pos n) - 53 - - Z.of_N k) as [|q|q] eqn:E.
  - replace (Pos.shiftl n k) with (Pos.shiftl (nfm n) 0).
    2:{ apply Pos2Z.inj. change (Pos.shiftl (nfm n) 0) with (nfm n). rewrite Zpos_nfm, Zpos_shiftl by exact H.
        replace (Z.of_N k) with (53 - Zpos (digits2_pos n)) by lia. reflexivity. }
    replace (- Z.of_N k) with (nfe n - Z.of_N 0) by (unfold nfe; lia).
    apply binary_round_aux_exact, Hb.
  - replace (Pos.shiftl n k) with (Pos.shiftl (nfm n) (Npos q)).
    2:{ apply Pos2Z.inj. rewrite !Zpos_shiftl, Zpos_nfm by exact H.
        rewrite <- Z.mul_assoc, <- Z.pow_add_r by lia. f_equal. f_equal. cbn [Z.of_N]. lia. }
    replace (- Z.of_N k) with (nfe n - Z.of_N (Npos q)) by (unfold nfe; cbn [Z.of_N]; lia).
    apply binary_round_aux_exact, Hb.
  - replace (@Pos.iter positive xO (Pos.shiftl n k) q) with (Pos.shiftl (nfm n) 0).
    2:{ apply Pos2Z.inj. change (Pos.shiftl (nfm n) 0) with (nfm n). rewrite Zpos_iter_xO, Zpos_shiftl, Zpos_nfm by exact H.
        rewrite <- Z.mul_assoc, <- Z.pow_add_r by lia. f_equal. f_equal. lia. }
    replace (Zpos (digits2_pos n) - 53) with (nfe n - Z.of_N 0) by (unfold nfe; cbn; lia).
    apply binary_round_aux_exact, Hb.
Qed.

Lemma ZSF_pos (n : positive) :
  Zpos n < 2 ^ 53 -> ZSF (Zpos n) = S754_finite false (nfm n) (nfe n).
Proof. intros H. exact (binary_round_int false n 0 H). Qed.

Lemma ZSF_valid (n : Z) : 0 <= n < 2 ^ 53 -> SpecFloat.valid_binary prec emax (ZSF n) = true.
Proof.
  intros [H0 H]. destruct n as [|n|n]; [reflexivity| |lia].
  rewrite ZSF_pos by exact H. apply nf_bounded, H.
Qed.

(** Subtraction of integers below [2 ^ 53] is exact. *)
Lemma SFsub_int (a b : Z) :
  0 <= b <= a -> a < 2 ^ 53 ->
  SFsub prec emax (ZSF a) (ZSF b) = ZSF (a - b).
Proof.
  intros [Hb Hba] Ha.
  destruct b as [|b|b]; [|clear Hb|lia].
  { rewrite Z.sub_0_r. destruct a as [|a|a]; [reflexivity| |lia].
    rewrite ZSF_pos by exact Ha. reflexivity. }
  destruct a as [|a|a]; [lia| |lia].
  assert (Hb : Zpos b < 2 ^ 53) by lia.
  pose proof (digits2_pos_le a b ltac:(lia)) as Hd.
  pose proof (digits2_pos_53 a Ha) as Hda.
  rewrite !ZSF_pos by assumption. cbn [SFsub cond_Zopp].
  assert (Hmin : Z.min (nfe a) (nfe b) = nfe b) by (unfold nfe; lia).
  rewrite Hmin.
  assert (Hfa : Zpos (fst (shl_align (nfm a) (nfe a) (nfe b))) =
                Zpos a * 2 ^ (53 - Zpos (digits2_pos b))).
  { unfold shl_align. destruct (nfe b - nfe a) as [|q|q] eqn:E; cbn [fst].
    - rewrite Zpos_nfm by exact Ha. unfold nfe in E. do 2 f_equal. lia.
    - unfold nfe in E. lia.
    - rewrite Zpos_iter_xO, Zpos_nfm by exact Ha.
      rewrite <- Z.mul_assoc, <- Z.pow_add_r by lia. unfold nfe in E. do 2 f_equal. lia. }
  assert (Hfb : Zpos (fst (shl_align (nfm b) (nfe b) (nfe b))) =
                Zpos b * 2 ^ (53 - Zpos (digits2_pos b))).
  { unfold shl_align. rewrite Z.sub_diag. cbn [fst]. apply Zpos_nfm, Hb. }
  rewrite Hfa, Hfb, <- Z.mul_sub_distr_r.
  destruct (Zpos a - Zpos b) as [|c|c] eqn:Ec; [reflexivity| |lia].
  assert (Hc : Zpos c < 2 ^ 53) by lia.
  pose proof (digits2_pos_53 b Hb) as Hdb.
  replace (Zpos c * 2 ^ (53 - Zpos (digits2_pos b)))
    with (Zpos (Pos.shiftl c (Z.to_N (53 - Zpos (digits2_pos b)))))
    by (rewrite Zpos_shiftl, Z2N.id by lia; reflexivity).
  cbn [binary_normalize].
  replace (nfe b) with (- Z.of_N (Z.to_N (53 - Zpos (digits2_pos b))))
    by (unfold nfe; rewrite Z2N.id by lia; lia).
  rewrite binary_round_int by exact Hc. symmetry. apply ZSF_pos, Hc.
Qed.

End SpecFloatFacts.

(** ** Facts on binary64 numbers *)

Module FloatFacts.

Import Double.
Import SpecFloatFacts.
Local Open Scope float_scope.

(** A binary64 number is known by its specification value. *)
Lemma Prim2SF_inj (x y : float) : Prim2SF x = Prim2SF y -> x = y.
Proof. intros E. rewrite <- (SF2Prim_Prim2SF x), <- (SF2Prim_Prim2SF y), E. reflexivity. Qed.

Lemma Prim2SF_ofZ (n : Z) : (0 <= n < 2 ^ 53)%Z -> Prim2SF (ofZ n) = ZSF n.
Proof. intros H. apply Prim2SF_SF2Prim, ZSF_valid, H. Qed.

(** [a - b] on whole numbers [0 <= b <= a < 2 ^ 53] does not round. *)
Lemma sub_ofZ (a b : Z) :
  (0 <= b <= a)%Z -> (a < 2 ^ 53)%Z -> ofZ a - ofZ b = ofZ (a - b).
Proof.
  intros Hb Ha. apply Prim2SF_inj.
  rewrite sub_spec, !Prim2SF_ofZ by lia. apply SFsub_int; assumption.
Qed.

Lemma Prim2SF_finite_bounded (x : float) (s : bool) (m : positive) (e : Z) :
  Prim2SF x = S754_finite s m e -> bounded prec emax m e = true.
Proof. intros E. pose proof (Prim2SF_valid x) as V. rewrite E in V. exact V. Qed.

(** Multiplication by 1 or -1 does not round. *)
Lemma SFmul_one_r (s : bool) (m : positive) (e : Z) (t : bool) :
  bounded prec emax m e = true ->
  SFmul prec emax (S754_finite s m e) (S754_finite t 4503599627370496 (-52)) =
    S754_finite (xorb s t) m e.
Proof.
  intros Hb. cbn [SFmul].
  replace (m * 4503599627370496)%positive with (Pos.shiftl m 52)
    by (apply Pos2Z.inj; rewrite Zpos_shiftl, Pos2Z.inj_mul; reflexivity).
  replace (e + -52)%Z with (e - Z.of_N 52)%Z by lia.
  apply binary_round_aux_exact, Hb.
Qed.

Lemma SFmul_one_l (s : bool) (m : positive) (e : Z) (t : bool) :
  bounded prec emax m e = true ->
  SFmul prec emax (S754_finite t 4503599627370496 (-52)) (S754_finite s m e) =
    S754_finite (xorb t s) m e.
Proof.
  intros Hb. cbn [SFmul].
  replace (4503599627370496 * m)%positive with (Pos.shiftl m 52)
    by (apply Pos2Z.inj; rewrite Zpos_shiftl, Pos2Z.inj_mul; lia).
  replace (-52 + e)%Z with (e - Z.of_N 52)%Z by lia.
  apply binary_round_aux_exact, Hb.
Qed.

(** Rounding to nearest is symmetric in the sign. *)
Lemma binary_round_aux_opp (s : bool) (m e : Z) (l : location) :
  binary_round_aux prec emax (negb s) m e l = SFopp (binary_round_aux prec emax s m e l).
Proof.
  unfold binary_round_aux.
  destruct (shr_fexp prec emax m e l) as [mrs e'].
  destruct (shr_fexp prec emax _ e' loc_Exact) as [mrs' e''].
  destruct (shr_m mrs'); [reflexivity| |reflexivity].
  destruct (e'' <=? emax - prec)%Z; reflexivity.
Qed.

Lemma float_mul_1_r (x : float) : x * 1 = x.
Proof.
  apply Prim2SF_inj. rewrite mul_spec. change (Prim2SF 1) with (S754_finite false 4503599627370496 (-52)).
  destruct (Prim2SF x) as [s|s| |s m e] eqn:E; try reflexivity.
  - cbn. destruct s; reflexivity.
  - cbn. destruct s; reflexivity.
  - unfold SF64mul. rewrite SFmul_one_r by exact (Prim2SF_finite_bounded x s m e E).
    destruct s; reflexivity.
Qed.

Lemma float_mul_1_l (x : float) : 1 * x = x.
Proof.
  apply Prim2SF_inj. rewrite mul_spec. change (Prim2SF 1) with (S754_finite false 4503599627370496 (-52)).
  destruct (Prim2SF x) as [s|s| |s m e] eqn:E; try reflexivity.
  unfold SF64mul. rewrite SFmul_one_l by exact (Prim2SF_finite_bounded x s m e E).
  reflexivity.
Qed.

Lemma float_mul_m1_r (x : float) : x * (-1) = - x.
Proof.
  apply Prim2SF_inj. rewrite mul_spec, opp_spec.
  change (Prim2SF (-1)) with (S754_finite true 4503599627370496 (-52)).
  destruct (Prim2SF x) as [s|s| |s m e] eqn:E; try reflexivity.
  unfold SF64mul. rewrite SFmul_one_r by exact (Prim2SF_finite_bounded x s m e E).
  reflexivity.
Qed.

Lemma float_mul_opp_l (x y : float) : (- x) * y = - (x * y).
Proof.
  apply Prim2SF_inj. rewrite opp_spec, !mul_spec, opp_spec. unfold SF64mul.
  destruct (Prim2SF x) as [s|s| |s m e], (Prim2SF y) as [t|t| |t n f]; cbn [SFmul SFopp];
    try reflexivity; try (destruct s, t; reflexivity).
  rewrite <- binary_round_aux_opp. destruct s, t; reflexivity.
Qed.

(** A finite number is one of the two zeros or finite and not zero. *)
Lemma float_finite_cases (x : float) :
  is_finite x = true -> x = 0 \/ x = neg_zero \/ nonzero_finite x.
Proof.
  unfold is_finite, is_nan, is_infinity, nonzero_finite.
  rewrite !FloatAxioms.eqb_spec, abs_spec.
  destruct (Prim2SF x) as [s|s| |s m e] eqn:E.
  - intros _. destruct s; [right; left|left]; apply Prim2SF_inj; rewrite E; reflexivity.
  - destruct s; cbn; discriminate.
  - cbn; discriminate.
  - intros _. right. right. exact I.
Qed.

(** Adding a zero to a number that is not a zero changes nothing. *)
Lemma float_add_0_r (x : float) : nonzero_finite x -> x + 0 = x.
Proof.
  unfold nonzero_finite. intros H. apply Prim2SF_inj. rewrite add_spec.
  change (Prim2SF 0) with (S754_zero false).
  destruct (Prim2SF x); try contradiction. reflexivity.
Qed.

Lemma float_add_m0_r (x z : float) : nonzero_finite x -> z = neg_zero -> x + z = x.
Proof.
  unfold nonzero_finite. intros H ->. apply Prim2SF_inj. rewrite add_spec.
  change (Prim2SF neg_zero) with (S754_zero true).
  destruct (Prim2SF x); try contradiction. reflexivity.
Qed.

Lemma float_add_0_l (x : float) : nonzero_finite x -> 0 + x = x.
Proof.
  unfold nonzero_finite. intros H. apply Prim2SF_inj. rewrite add_spec.
  change (Prim2SF 0) with (S754_zero false).
  destruct (Prim2SF x); try contradiction. reflexivity.
Qed.

Lemma opp_nonzero_finite (x : float) : nonzero_finite x -> nonzero_finite (- x).
Proof.
  unfold nonzero_finite. rewrite opp_spec. destruct (Prim2SF x); auto.
Qed.

(** A product that is 2 has two factors that are finite and not zero. *)
Lemma float_product_two (x y : float) : x * y = 2 -> nonzero_finite x /\ nonzero_finite y.
Proof.
  intros H. apply (f_equal Prim2SF) in H. rewrite mul_spec in H.
  change (Prim2SF 2) with (S754_finite false 4503599627370496 (-51)) in H.
  unfold nonzero_finite.
  destruct (Prim2SF x) as [s|s| |s m e], (Prim2SF y) as [t|t| |t n f];
    try discriminate H; split; exact I.
Qed.

(** A finite number times zero is a zero, of either sign. *)
Lemma float_zero_cases (x : float) :
  nonzero_finite x ->
  (x * 0 = 0 /\ 0 * x = 0) \/ (x * 0 = neg_zero /\ 0 * x = neg_zero).
Proof.
  unfold nonzero_finite. intros H.
  destruct (Prim2SF x) as [s|s| |s m e] eqn:E; try contradiction.
  destruct s; [right|left]; split; apply Prim2SF_inj; rewrite mul_spec, E; reflexivity.
Qed.

(** Evaluation of an expression in numbers of known kind: closed parts
    are computed, the factors 1 and -1 and the zero terms removed. *)
Ltac float_norm :=
  let z := eval cbv in neg_zero in
  repeat (progress (cbn; unfold neg_zero in *;
    rewrite ?float_mul_1_l, ?float_mul_1_r, ?float_mul_m1_r, ?float_mul_opp_l;
    repeat match goal with
           | E : (_ * _)%float = _ |- _ => progress rewrite E
           | R : nonzero_finite ?x |- _ =>
               progress rewrite ?(float_add_0_r x R), ?(float_add_0_l x R), ?(float_add_m0_r x z R eq_refl),
                 ?(float_add_0_r _ (opp_nonzero_finite x R)),
                 ?(float_add_0_l _ (opp_nonzero_finite x R)),
                 ?(float_add_m0_r _ z (opp_nonzero_finite x R) eq_refl)
           end)).

Ltac float_zero_products x H :=
  let E1 := fresh "E" in let E2 := fresh "E" in
  destruct (float_zero_cases x H) as [[E1 E2]|[E1 E2]].

End FloatFacts.

(** ** [_flipRect], [readPixels] and [draw] on binary64 numbers *)

Import SpecFloatFacts FloatFacts.
Import Double Double.DrawTarget.
Local Open Scope float_scope.
#[local] Set Warnings "-inexact-float".

(** The flip correction never touches the columns. *)
Lemma flipRect_width_binary64 (self : t) (canvas : HTMLCanvasElement) (rect : Rect.t) :
  Rect.width (_flipRect self canvas rect) = Rect.width rect.
Proof. unfold _flipRect. destruct (flipY (fields self)); reflexivity. Qed.

(** C4, on whole rows.  On a target of height [H], a whole number below
    [2 ^ 53], and for a rectangle whose top and bottom are whole numbers
    between 0 and [H] (left and right are arbitrary), flipping twice
    gives the rectangle back: [H - (H - top)] and [H - (H - bottom)] do
    not round. *)
Theorem flipRect_twice_integer_rows (self : t) (canvas : HTMLCanvasElement)
    (rect : Rect.t) (H t b : Z) :
  (0 ≤ t ≤ H)%Z → (0 ≤ b ≤ H)%Z → (H < 2 ^ 53)%Z →
  Vec2.height (size self canvas) = ofZ H →
  Rect.top rect = ofZ t → Rect.bottom rect = ofZ b →
  _flipRect self canvas (_flipRect self canvas rect) = rect.
Proof.
  intros Ht Hb HH Hsize Htop Hbot. unfold _flipRect.
  destruct (flipY (fields self)); [|reflexivity].
  destruct rect as [[l t'] [r b']]. cbn in *. subst t' b'. rewrite Hsize.
  rewrite !sub_ofZ by lia.
  replace (H - (H - t))%Z with t by lia. replace (H - (H - b))%Z with b by lia.
  reflexivity.
Qed.

Lemma flipRect_twice_integer_rows_witness :
  _flipRect flipped_target canvas_100x50
    (_flipRect flipped_target canvas_100x50 (Rect.new (Vec2.new 0.1 10) (Vec2.new 0.7 30))) =
  Rect.new (Vec2.new 0.1 10) (Vec2.new 0.7 30).
Proof.
  apply (flipRect_twice_integer_rows flipped_target canvas_100x50 _ 50 10 30);
    try lia; reflexivity.
Defined.

(** C4 fails where the subtraction rounds: on a flipped canvas of
    height 50 the rectangle with corners (0.1, 0.1) and (0.7, 0.7) comes
    back from two flips with top 0.10000000000000142 and bottom
    0.7000000000000028, and [equals] tells it from the original. *)
Lemma flipRect_twice_rounds :
  let rect := Rect.new (Vec2.new 0.1 0.1) (Vec2.new 0.7 0.7) in
  let twice := _flipRect flipped_target canvas_100x50
                 (_flipRect flipped_target canvas_100x50 rect) in
  flipY (fields flipped_target) = true ∧
  Rect.top twice = 0.10000000000000142 ∧ Rect.bottom twice = 0.7000000000000028 ∧
  Rect.equals twice rect = false ∧ twice ≠ rect.
Proof.
  cbv zeta. repeat split; try reflexivity.
  intros E.
  apply (f_equal (fun r => Rect.equals r (Rect.new (Vec2.new 0.1 0.1) (Vec2.new 0.7 0.7)))) in E.
  vm_compute in E. discriminate E.
Qed.

(** C10, on whole rows.  The flip correction keeps the width of every
    rectangle.  It keeps the height when [flipY] is unset, and when it
    is set for whole rows [0 <= top <= bottom <= H < 2 ^ 53]; then
    [readPixels] issues, after the activation, one read-back of
    [rect.width] by [rect.height] pixels. *)
Theorem readPixels_extent_binary64 (self : t) (canvas : HTMLCanvasElement)
    (rect : Rect.t) (data : WebGL.ArrayBufferView) (opts : ReadPixelsOpts) :
  flipY (fields self) = false ∨ integer_rows self canvas rect →
  Rect.width (_flipRect self canvas rect) = Rect.width rect ∧
  Rect.height (_flipRect self canvas rect) = Rect.height rect ∧
  readPixels self rect data opts canvas =
    [use self;
     gl_readPixels (Rect.left rect) (Rect.top (_flipRect self canvas rect))
       (Rect.width rect) (Rect.height rect)
       (or_else (format opts) (pixelFormat self))
       (or_else (type opts) (pixelType self)) data].
Proof.
  intros Hrows.
  assert (Hh : Rect.height (_flipRect self canvas rect) = Rect.height rect).
  { unfold _flipRect. destruct (flipY (fields self)) eqn:Hflip; [|reflexivity].
    destruct Hrows as [Hf|(H & t & b & Ht & Hb & Hsize & Htop & Hbot)]; [discriminate Hf|].
    unfold Rect.height. destruct rect as [[l t'] [r b']]. cbn in *. subst t' b'.
    rewrite Hsize, !sub_ofZ by lia. f_equal. lia. }
  split; [apply flipRect_width_binary64|]. split; [exact Hh|].
  unfold readPixels. rewrite Hh, flipRect_width_binary64.
  unfold _flipRect at 1. destruct (flipY (fields self)); reflexivity.
Qed.

Lemma readPixels_extent_binary64_witness :
  let rect := Rect.new (Vec2.new 0.5 10) (Vec2.new 10.25 30) in
  Rect.width (_flipRect flipped_target canvas_100x50 rect) = 9.75 ∧
  Rect.height (_flipRect flipped_target canvas_100x50 rect) = 20 ∧
  readPixels flipped_target rect 1%positive (mkOpts None None) canvas_100x50 =
    [use flipped_target;
     gl_readPixels 0.5 20 9.75 20 "rgba"%string "byte"%string 1%positive].
Proof.
  apply (readPixels_extent_binary64 flipped_target canvas_100x50
           (Rect.new (Vec2.new 0.5 10) (Vec2.new 10.25 30)) 1%positive (mkOpts None None)).
  right. exists 50%Z, 10%Z, 30%Z. repeat split; try lia; reflexivity.
Defined.

(** C10 fails where the subtraction rounds: on a flipped canvas of
    height 50 the rectangle with corners (0, 0.4) and (10, 1.4) has
    height 0.9999999999999999, the flipped one has height 1, and
    [readPixels] issues a read-back of height 1. *)
Lemma readPixels_height_rounds :
  let rect := Rect.new (Vec2.new 0 0.4) (Vec2.new 10 1.4) in
  Rect.height rect = 0.99999999999999989 ∧
  Rect.height (_flipRect flipped_target canvas_100x50 rect) = 1 ∧
  Rect.height (_flipRect flipped_target canvas_100x50 rect) ≠ Rect.height rect ∧
  readPixels flipped_target rect 1%positive (mkOpts None None) canvas_100x50 =
    [use flipped_target; gl_readPixels 0 48.6 10 1 "rgba"%string "byte"%string 1%positive].
Proof.
  cbv zeta. repeat split; try reflexivity.
  intros E. apply (f_equal (fun x => x =? 1)) in E. vm_compute in E. discriminate E.
Qed.

(** The matrix of [draw] under the identity as global transform, when
    the two scale factors are finite: the diagonal holds the factors
    (a zero factor as +0), the last row the translation. *)
Lemma effectiveTransform_identity_binary64 (self : t) (canvas : HTMLCanvasElement) :
  transform (fields self) = Transform.identity →
  is_finite (2 / Vec2.width (size self canvas)) = true →
  is_finite (2 / Vec2.height (size self canvas)) = true →
  effectiveTransform self canvas =
    if flipY (fields self)
    then Transform.new (2 / Vec2.width (size self canvas) + 0) 0 0
                       0 (- (2 / Vec2.height (size self canvas)) + 0) 0
                       (-1) 1 1
    else Transform.new (2 / Vec2.width (size self canvas) + 0) 0 0
                       0 (2 / Vec2.height (size self canvas) + 0) 0
                       (-1) (-1) 1.
Proof.
  intros Htr. unfold effectiveTransform. rewrite Htr. cbn [Vec2.x Vec2.y Vec2.new1].
  generalize (2 / Vec2.width (size self canvas)) (2 / Vec2.height (size self canvas)).
  intros sx sy Hx Hy.
  unfold Transform.merge, Transform.scale, Transform.translate, Transform.identity, Vec2.new1.
  cbn [Transform.m00 Transform.m01 Transform.m02 Transform.m10 Transform.m11 Transform.m12
       Transform.m20 Transform.m21 Transform.m22 Vec2.x Vec2.y].
  destruct (float_finite_cases sx Hx) as [->|[->|Rx]],
           (float_finite_cases sy Hy) as [->|[->|Ry]];
    try float_zero_products sx Rx; try float_zero_products sy Ry;
    destruct (flipY (fields self));
    cbn [Transform.m00 Transform.m01 Transform.m02 Transform.m10 Transform.m11 Transform.m12
       Transform.m20 Transform.m21 Transform.m22 Vec2.x Vec2.y];
    float_norm; reflexivity.
Qed.

(** C2, with the rounding of the code.  [draw] activates the target and
    calls the model with the matrix.  With the identity as global
    transform and a size (W, H) for which [2 / W] and [2 / H] are
    finite, the matrix maps pixel (0, 0) to (-1, -1), to (-1, 1) when
    [flipY] is set; it maps (W, H) to (1, 1), to (1, -1) when [flipY] is
    set, whenever the rounded products [(2 / W) * W] and [(2 / H) * H]
    are 2. *)
Theorem draw_maps_corners_binary64 (self : t) (model : Model) (canvas : HTMLCanvasElement) :
  let W := Vec2.width (size self canvas) in
  let H := Vec2.height (size self canvas) in
  transform (fields self) = Transform.identity →
  is_finite (2 / W) = true → is_finite (2 / H) = true →
  draw self model canvas = [use self; model_draw model (effectiveTransform self canvas)] ∧
  Transform.apply (effectiveTransform self canvas) (Vec2.new 0 0) =
    Vec2.new (-1) (if flipY (fields self) then 1 else -1) ∧
  (2 / W * W = 2 → 2 / H * H = 2 →
   Transform.apply (effectiveTransform self canvas) (Vec2.new W H) =
     Vec2.new 1 (if flipY (fields self) then -1 else 1)).
Proof.
  intros W H Htr Hx Hy. split; [reflexivity|].
  rewrite (effectiveTransform_identity_binary64 self canvas Htr Hx Hy).
  fold W H. fold W in Hx. fold H in Hy.
  set (sx := 2 / W) in *. set (sy := 2 / H) in *. clearbody sx sy W H.
  unfold Transform.apply. split.
  - destruct (float_finite_cases sx Hx) as [->|[->|Rx]],
             (float_finite_cases sy Hy) as [->|[->|Ry]];
      try float_zero_products sx Rx; try float_zero_products sy Ry;
      destruct (flipY (fields self)); float_norm; reflexivity.
  - intros Ex Ey.
    destruct (float_product_two sx W Ex) as [Rx RW], (float_product_two sy H Ey) as [Ry RH].
    float_zero_products W RW; float_zero_products H RH;
      destruct (flipY (fields self)); float_norm; reflexivity.
Qed.

Lemma draw_maps_corners_binary64_witness :
  Transform.apply (effectiveTransform flipped_target canvas_100x50) (Vec2.new 0 0) =
    Vec2.new (-1) 1 ∧
  Transform.apply (effectiveTransform flipped_target canvas_100x50) (Vec2.new 100 50) =
    Vec2.new 1 (-1) ∧
  Transform.apply (effectiveTransform plain_target canvas_100x50) (Vec2.new 0 0) =
    Vec2.new (-1) (-1) ∧
  Transform.apply (effectiveTransform plain_target canvas_100x50) (Vec2.new 100 50) =
    Vec2.new 1 1.
Proof.
  destruct (draw_maps_corners_binary64 flipped_target 1%positive canvas_100x50
              eq_refl eq_refl eq_refl) as (_ & H0 & H1).
  destruct (draw_maps_corners_binary64 plain_target 1%positive canvas_100x50
              eq_refl eq_refl eq_refl) as (_ & H2 & H3).
  split; [exact H0|]. split; [exact (H1 eq_refl eq_refl)|].
  split; [exact H2|exact (H3 eq_refl eq_refl)].
Defined.

(** C2 fails where the product rounds, and on a target without area.
    On a canvas of 49 x 49 pixels both scale factors are finite and
    [(2 / 49) * 49] is 1.9999999999999998: the corner (49, 49) goes to
    0.9999999999999998 in both coordinates, not to (1, 1), and with
    [flipY] set to (0.9999999999999998, -0.9999999999999998).  A texture
    draw target with no texture has size (0, 0): [2 / 0] is an infinity,
    [draw] still calls the model, with a matrix that is not finite, and
    the image of (0, 0) is NaN. *)
Lemma draw_far_corner_rounds :
  transform (fields plain_target) = Transform.identity ∧
  is_finite (2 / Vec2.width (size plain_target canvas_49x49)) = true ∧
  2 / 49 * 49 = 1.9999999999999998 ∧
  Transform.apply (effectiveTransform plain_target canvas_49x49) (Vec2.new 49 49) =
    Vec2.new 0.99999999999999978 0.99999999999999978 ∧
  Transform.apply (effectiveTransform flipped_target canvas_49x49) (Vec2.new 49 49) =
    Vec2.new 0.99999999999999978 (-0.99999999999999978) ∧
  size detached_target canvas_49x49 = Vec2.new 0 0 ∧
  draw detached_target 1%positive canvas_49x49 =
    [use detached_target;
     model_draw 1%positive (effectiveTransform detached_target canvas_49x49)] ∧
  is_finite (Transform.m00 (effectiveTransform detached_target canvas_49x49)) = false ∧
  is_nan (Vec2.x (Transform.apply (effectiveTransform detached_target canvas_49x49)
                    (Vec2.new 0 0))) = true.
Proof. repeat split; reflexivity. Qed.
